(** * The [Hub] class of hubitatmaker (hubitatmaker/hub.py)

    A shallow embedding of the device cache, the event path, the request
    layer and the constructor of [Hub], followed by the properties of the
    specification that concern them.

    Conventions.
    - Values decoded from JSON are dynamically typed in the source; they are
      embedded as [pyval] and the operations on them ([in], subscription,
      truth value, iteration) follow Python, exceptions included.
    - A parameter annotated [str] in the source is a [string] here.
    - Methods that read the hub or only rebind one of its attributes are
      functions on the [Hub] record; methods that update the device cache,
      talk to the network or call listeners live in the monad [M], which
      threads a [World] and may raise.
    - Calls to the logger have no effect on state or control flow and are
      left out. *)

From Stdlib Require Import ZArith String Ascii List DecimalString.
From Stdlib.Floats Require Import SpecFloat.
From stdpp Require Import gmap strings list fin_maps.

Set Warnings "-register-all".
Open Scope string_scope.

(** ** Strings: the [str] methods used by the source and by urllib.parse

    A [str] is a [string]; its characters are those with a code below 256. *)

Module Str.

Definition code (c : ascii) : nat := nat_of_ascii c.

Definition is_upper (c : ascii) : bool := (65 <=? code c)%nat && (code c <=? 90)%nat.
Definition is_lower (c : ascii) : bool := (97 <=? code c)%nat && (code c <=? 122)%nat.
Definition is_digit (c : ascii) : bool := (48 <=? code c)%nat && (code c <=? 57)%nat.

(** [c.isascii() and c.isalpha()] *)
Definition is_ascii_alpha (c : ascii) : bool := is_upper c || is_lower c.

(** [c.isascii()] *)
Definition is_ascii (c : ascii) : bool := (code c <? 128)%nat.

(** [c in s] for a one-character [c] *)
Fixpoint contains_char (c : ascii) (s : string) : bool :=
  match s with
  | EmptyString => false
  | String a s' => Ascii.eqb a c || contains_char c s'
  end.

(** [s.find(c)]; Python's [-1] is [None] *)
Fixpoint find (c : ascii) (s : string) : option nat :=
  match s with
  | EmptyString => None
  | String a s' => if Ascii.eqb a c then Some 0%nat else S <$> find c s'
  end.

(** [s.rfind(c)] *)
Fixpoint rfind (c : ascii) (s : string) : option nat :=
  match s with
  | EmptyString => None
  | String a s' =>
      match rfind c s' with
      | Some i => Some (S i)
      | None => if Ascii.eqb a c then Some 0%nat else None
      end
  end.

(** [s[:n]] *)
Fixpoint take (n : nat) (s : string) : string :=
  match n, s with
  | S n', String a s' => String a (take n' s')
  | _, _ => EmptyString
  end.

(** [s[n:]] *)
Fixpoint drop (n : nat) (s : string) : string :=
  match n, s with
  | S n', String _ s' => drop n' s'
  | _, _ => s
  end.

(** [s.find(c, start)] *)
Definition find_from (c : ascii) (start : nat) (s : string) : option nat :=
  Nat.add start <$> find c (drop start s).

(** [s.replace(b, "")] for a one-character [b] *)
Fixpoint remove_char (b : ascii) (s : string) : string :=
  match s with
  | EmptyString => EmptyString
  | String a s' => if Ascii.eqb a b then remove_char b s' else String a (remove_char b s')
  end.

(** [s.lstrip(chars)], [chars] given by its membership test *)
Fixpoint lstrip (chars : ascii → bool) (s : string) : string :=
  match s with
  | EmptyString => EmptyString
  | String a s' => if chars a then lstrip chars s' else s
  end.

Definition lower_char (c : ascii) : ascii :=
  if is_upper c then ascii_of_nat (code c + 32) else c.

(** [s.lower()] on ASCII text *)
Fixpoint lower (s : string) : string :=
  match s with
  | EmptyString => EmptyString
  | String a s' => String (lower_char a) (lower s')
  end.

Fixpoint forallb (p : ascii → bool) (s : string) : bool :=
  match s with
  | EmptyString => true
  | String a s' => p a && forallb p s'
  end.

(** [sub in s] for strings *)
Fixpoint contains (sub s : string) : bool :=
  String.prefix sub s ||
  match s with
  | EmptyString => false
  | String _ s' => contains sub s'
  end.

(** [s.split(c, 1)] when [c in s]: the text before and after the first [c] *)
Definition split1 (c : ascii) (s : string) : option (string * string) :=
  i ← find c s; Some (take i s, drop (S i) s).

(** the characters of [s], as [for ch in s] yields them *)
Fixpoint chars (s : string) : list string :=
  match s with
  | EmptyString => []
  | String a s' => String a EmptyString :: chars s'
  end.

(** [str(n)] / [f"{n}"] for an [int] *)
Definition of_int (n : Z) : string := NilZero.string_of_int (Z.to_int n).

(** [c.isspace()] *)
Definition is_space (c : ascii) : bool :=
  let n := code c in
  ((9 <=? n) && (n <=? 13) || (28 <=? n) && (n <=? 32) || (n =? 133) || (n =? 160))%nat.

(** [s.rstrip(chars)], [chars] given by its membership test *)
Fixpoint rstrip (chars : ascii → bool) (s : string) : string :=
  match s with
  | EmptyString => EmptyString
  | String a s' =>
      match rstrip chars s' with
      | EmptyString => if chars a then EmptyString else String a EmptyString
      | r => String a r
      end
  end.

(** [s.strip()] *)
Definition strip (s : string) : string := rstrip is_space (lstrip is_space s).

End Str.

(** ** Values decoded from JSON

    [json.loads] yields [None], [bool], [int], [float], [str], [list] and
    [dict] with [str] keys.  A [dict] keeps insertion order, so it is an
    association list; lookup takes the first binding of a key and assignment
    overwrites it in place, or appends a new binding. *)

Inductive pyval : Type :=
| PNone
| PBool (b : bool)
| PInt (n : Z)
| PFloat (x : spec_float)
| PStr (s : string)
| PList (items : list pyval)
| PDict (entries : list (string * pyval)).

Fixpoint dict_get (d : list (string * pyval)) (k : string) : option pyval :=
  match d with
  | [] => None
  | (k', v) :: d' => if String.eqb k' k then Some v else dict_get d' k
  end.

Fixpoint dict_set (d : list (string * pyval)) (k : string) (v : pyval) : list (string * pyval) :=
  match d with
  | [] => [(k, v)]
  | (k', v') :: d' => if String.eqb k' k then (k', v) :: d' else (k', v') :: dict_set d' k v
  end.

Definition float_is_zero (x : spec_float) : bool :=
  match x with
  | S754_zero _ => true
  | _ => false
  end.

(** [bool(v)] *)
Definition py_truthy (v : pyval) : bool :=
  match v with
  | PNone => false
  | PBool b => b
  | PInt n => negb (n =? 0)%Z
  | PFloat x => negb (float_is_zero x)
  | PStr s => negb (String.eqb s "")
  | PList items => match items with [] => false | _ => true end
  | PDict entries => match entries with [] => false | _ => true end
  end.

(** [v == s] for a [str] [s]: no value of another type equals a string. *)
Definition py_eq_str (v : pyval) (s : string) : bool :=
  match v with
  | PStr t => String.eqb t s
  | _ => false
  end.

(** ** Responses, exceptions and results *)

(** What the source reads of an [aiohttp] response: [resp.status] and the
    outcome of [await resp.json()] ([None] when the body does not decode). *)
Record Response := {
  status : Z;
  json : option pyval
}.

Inductive exn : Type :=
| KeyError (key : string)
| TypeError
| AttributeError (attr : string)
| ValueError
| InvalidAttribute (msg : string)
| InvalidConfig
| InvalidToken
| RequestError (resp : Response)
| DecodeError                      (* raised by [resp.json()] *)
| ClientError (msg : string)       (* [aiohttp.ClientError]: the transport failed *)
| ListenerError (code : nat)       (* whatever a listener raises *)
| IllTyped.                        (* not a Python exception, see [as_str] *)

Inductive result (A : Type) : Type :=
| Ok (a : A)
| Raise (e : exn).
Arguments Ok {A} a.
Arguments Raise {A} e.

#[global] Instance result_ret : MRet result := λ A a, Ok a.
#[global] Instance result_bind : MBind result := λ A B f r,
  match r with
  | Ok a => f a
  | Raise e => Raise e
  end.

(** ** Python operators on decoded values *)

(** [v[k]] for a [str] key: a [dict] looks the key up, a [list] or [str]
    rejects a non-integer index, anything else is not subscriptable. *)
Definition py_getitem (v : pyval) (k : string) : result pyval :=
  match v with
  | PDict d => match dict_get d k with
               | Some x => Ok x
               | None => Raise (KeyError k)
               end
  | _ => Raise TypeError
  end.

(** [v[k] = x] for a [str] key *)
Definition py_setitem (v : pyval) (k : string) (x : pyval) : result pyval :=
  match v with
  | PDict d => Ok (PDict (dict_set d k x))
  | _ => Raise TypeError
  end.

(** [k in v] for a [str] [k]: key of a [dict], element of a [list],
    substring of a [str]; the other types are not containers. *)
Definition py_contains (k : string) (v : pyval) : result bool :=
  match v with
  | PDict d => Ok (bool_decide (is_Some (dict_get d k)))
  | PList items => Ok (existsb (λ x, py_eq_str x k) items)
  | PStr s => Ok (Str.contains k s)
  | _ => Raise TypeError
  end.

(** The items [for x in v] runs through. *)
Definition py_iter (v : pyval) : result (list pyval) :=
  match v with
  | PList items => Ok items
  | PDict d => Ok (map (λ kv, PStr (fst kv)) d)
  | PStr s => Ok (map PStr (Str.chars s))
  | _ => Raise TypeError
  end.

(** A value reaching a parameter annotated [str].  Python does not check
    annotations at run time; a run that breaks one would need equality and
    formatting of arbitrary values, is outside this development and is cut
    off with [IllTyped]. *)
Definition as_str (v : pyval) : result string :=
  match v with
  | PStr s => Ok s
  | _ => Raise IllTyped
  end.

(** ** The hub *)

(** A listener is a parameterless callback, [Callable[[], None]]; it is
    named by a handle and its behaviour belongs to the environment. *)
Definition Listener := nat.

(** Modelled from the spec: the event server of module [server], which is not
    part of the sources.  The external listener collaborator exposes
    [start()], [stop()] and a discoverable callback [url]. *)
Record Server := {
  url : string;
  running : bool
}.

Definition server_stop (s : Server) : Server :=
  {| url := url s; running := false |}.

(** The instance attributes.  [_server] is the one attribute [__init__] does
    not assign: [None] stands for the attribute being absent. *)
Record Hub := {
  api_url : string;
  app_id : string;
  host : string;
  scheme : string;
  token : string;
  address : string;
  port : Z;
  _mac : option string;
  _started : bool;
  _devices : gmap string pyval;
  _info : gmap string string;
  _listeners : gmap string (list Listener);
  _server : option Server
}.

Definition set_devices (f : gmap string pyval → gmap string pyval) (h : Hub) : Hub :=
  {| api_url := api_url h; app_id := app_id h; host := host h; scheme := scheme h;
     token := token h; address := address h; port := port h; _mac := _mac h;
     _started := _started h; _devices := f (_devices h); _info := _info h;
     _listeners := _listeners h; _server := _server h |}.

Definition set_listeners (f : gmap string (list Listener) → gmap string (list Listener))
    (h : Hub) : Hub :=
  {| api_url := api_url h; app_id := app_id h; host := host h; scheme := scheme h;
     token := token h; address := address h; port := port h; _mac := _mac h;
     _started := _started h; _devices := _devices h; _info := _info h;
     _listeners := f (_listeners h); _server := _server h |}.

Definition set_started (b : bool) (h : Hub) : Hub :=
  {| api_url := api_url h; app_id := app_id h; host := host h; scheme := scheme h;
     token := token h; address := address h; port := port h; _mac := _mac h;
     _started := b; _devices := _devices h; _info := _info h;
     _listeners := _listeners h; _server := _server h |}.

Definition set_server (s : option Server) (h : Hub) : Hub :=
  {| api_url := api_url h; app_id := app_id h; host := host h; scheme := scheme h;
     token := token h; address := address h; port := port h; _mac := _mac h;
     _started := _started h; _devices := _devices h; _info := _info h;
     _listeners := _listeners h; _server := s |}.

(** *** Methods that only read or rebind registries *)

(** [Hub.add_device_listener] *)
Definition add_device_listener (device_id : string) (listener : Listener) (h : Hub) : Hub :=
  set_listeners (λ ls, <[device_id := (default [] (ls !! device_id) ++ [listener])%list]> ls) h.

(** [Hub.remove_device_listeners] *)
Definition remove_device_listeners (device_id : string) (h : Hub) : Hub :=
  set_listeners (λ ls, <[device_id := []]> ls) h.

(** The loop of [device_has_attribute]:
    [for attr in ...: if attr["name"] == attr_name: return True] *)
Fixpoint has_attr_loop (attr_name : string) (attrs : list pyval) : result bool :=
  match attrs with
  | [] => Ok false
  | attr :: rest =>
      n ← py_getitem attr "name";
      if py_eq_str n attr_name then Ok true else has_attr_loop attr_name rest
  end.

(** [Hub.device_has_attribute] *)
Definition device_has_attribute (h : Hub) (device_id attr_name : string) : result bool :=
  match _devices h !! device_id with
  | None => Raise (KeyError device_id)
  | Some state =>
      attrs ← py_getitem state "attributes";
      items ← py_iter attrs;
      has_attr_loop attr_name items
  end.

(** The loop of [get_device_attribute]:
    [for attr in ...: if attr["name"] == attr_name: return attr] *)
Fixpoint get_attr_loop (attr_name : string) (attrs : list pyval) : result (option pyval) :=
  match attrs with
  | [] => Ok None
  | attr :: rest =>
      n ← py_getitem attr "name";
      if py_eq_str n attr_name then Ok (Some attr) else get_attr_loop attr_name rest
  end.

(** [Hub.get_device_attribute]; Python's [None] result is [Ok None]. *)
Definition get_device_attribute (h : Hub) (device_id attr_name : string)
    : result (option pyval) :=
  match _devices h !! device_id with
  | Some state =>
      if py_truthy state then
        attrs ← py_getitem state "attributes";
        items ← py_iter attrs;
        get_attr_loop attr_name items
      else Ok None
  | None => Ok None
  end.

(** ** urllib.parse

    [urlparse] as CPython 3.11 defines it, for a [str] argument and the
    default [scheme=''], [allow_fragments=True].  Two checks on the network
    location are taken as given: [_check_bracketed_netloc], which accepts a
    bracketed host, and the part of [_checknetloc] that accepts a non-ASCII
    location after NFKC normalisation. *)

Module UrlParse.

Record ParseResult := {
  scheme : string;
  netloc : string;
  path : string;
  params : string;
  query : string;
  fragment : string
}.

(** [c in _WHATWG_C0_CONTROL_OR_SPACE] *)
Definition c0_control_or_space (c : ascii) : bool := (Str.code c <=? 32)%nat.

(** [c in scheme_chars] *)
Definition scheme_char (c : ascii) : bool :=
  Str.is_lower c || Str.is_upper c || Str.is_digit c || Str.contains_char c "+-.".

Definition uses_params : list string :=
  [""; "ftp"; "hdl"; "prospero"; "http"; "imap"; "https"; "shttp"; "rtsp";
   "rtspu"; "sip"; "sips"; "mms"; "sftp"; "tel"].

(** [for b in _UNSAFE_URL_BYTES_TO_REMOVE: url = url.replace(b, "")] *)
Definition remove_unsafe (url : string) : string :=
  Str.remove_char "010" (Str.remove_char "013" (Str.remove_char "009" url)).

(** The scheme and the rest of the url: a scheme is split off when the
    first [':'] is not at the start, the url starts with an ASCII letter
    and everything before the [':'] is a scheme character. *)
Definition split_scheme (url : string) : string * string :=
  match Str.find ":" url, url with
  | Some (S i), String c0 _ =>
      if Str.is_ascii_alpha c0 && Str.forallb scheme_char (Str.take (S i) url)
      then (Str.lower (Str.take (S i) url), Str.drop (S (S i)) url)
      else ("", url)
  | _, _ => ("", url)
  end.

(** [_splitnetloc(url, start)] *)
Definition _splitnetloc (url : string) (start : nat) : string * string :=
  let delim :=
    fold_left (λ delim c, match Str.find_from c start url with
                          | Some wdelim => Nat.min delim wdelim
                          | None => delim
                          end)
              ["/"; "?"; "#"]%char (String.length url) in
  (Str.take (delim - start) (Str.drop start url), Str.drop delim url).

(** [_splitparams(url)] *)
Definition _splitparams (url : string) : string * string :=
  let cut (i : option nat) :=
    match i with
    | Some i => (Str.take i url, Str.drop (S i) url)
    | None => (Str.take (String.length url - 1) url, url)   (* [i = -1] *)
    end in
  if Str.contains_char "/" url then
    match Str.find_from ";" (default 0%nat (Str.rfind "/" url)) url with
    | None => (url, "")
    | found => cut found
    end
  else cut (Str.find ";" url).

Section Checks.

Variable bracketed_netloc_ok : string → bool.
Variable nfkc_netloc_ok : string → bool.

(** [_checknetloc(netloc)] passes *)
Definition checknetloc (netloc : string) : bool :=
  String.eqb netloc "" || Str.forallb Str.is_ascii netloc || nfkc_netloc_ok netloc.

(** [urlsplit(url)]: scheme, netloc, path, query, fragment, or [None]
    where it raises [ValueError]. *)
Definition urlsplit (url : string)
    : option (string * string * string * string * string) :=
  let url := Str.lstrip c0_control_or_space url in
  let url := remove_unsafe url in
  let '(scheme, url) := split_scheme url in
  '(netloc, url) ←
    (if String.prefix "//" url then
       let '(netloc, url) := _splitnetloc url 2 in
       let opening := Str.contains_char "[" netloc in
       let closing := Str.contains_char "]" netloc in
       if (opening && negb closing) || (closing && negb opening) then None
       else if opening && closing && negb (bracketed_netloc_ok netloc) then None
       else Some (netloc, url)
     else Some ("", url));
  let '(url, fragment) := default (url, "") (Str.split1 "#" url) in
  let '(url, query) := default (url, "") (Str.split1 "?" url) in
  if checknetloc netloc then Some (scheme, netloc, url, query, fragment) else None.

(** [urlparse(url)] *)
Definition urlparse (url : string) : option ParseResult :=
  '(scheme, netloc, url, query, fragment) ← urlsplit url;
  let '(url, params) :=
    if bool_decide (scheme ∈ uses_params) && Str.contains_char ";" url
    then _splitparams url
    else (url, "") in
  Some {| scheme := scheme; netloc := netloc; path := url; params := params;
          query := query; fragment := fragment |}.

End Checks.

(** *** [quote]

    [quote(string, safe='')] for a [str]: the text is encoded as UTF-8, the
    bytes in [_ALWAYS_SAFE] are kept and every other byte becomes [%XX]. *)

(** [b in _ALWAYS_SAFE] *)
Definition always_safe (c : ascii) : bool :=
  Str.is_upper c || Str.is_lower c || Str.is_digit c || Str.contains_char c "_.-~".

Definition hex_digit (n : nat) : ascii :=
  if (n <? 10)%nat then ascii_of_nat (48 + n) else ascii_of_nat (55 + n).

(** ['%{:02X}'.format(b)] *)
Definition percent (b : nat) : string :=
  String "%" (String (hex_digit (b / 16)) (String (hex_digit (b mod 16)) EmptyString)).

(** The UTF-8 bytes of a character with a code below 256. *)
Definition utf8 (c : ascii) : list nat :=
  let n := Str.code c in
  if (n <? 128)%nat then [n] else [192 + n / 64; 128 + n mod 64]%nat.

Definition quote_char (c : ascii) : string :=
  if always_safe c then String c EmptyString
  else String.concat EmptyString (map percent (utf8 c)).

Fixpoint quote (s : string) : string :=
  match s with
  | EmptyString => EmptyString
  | String c s' => quote_char c ++ quote s'
  end.

End UrlParse.

(** *** Properties of the hub object *)

(** [Hub.__repr__] *)
Definition __repr__ (h : Hub) : string :=
  "<Hub host=" ++ host h ++ " app_id=" ++ app_id h ++ ">".

(** [Hub.id] *)
Definition id (h : Hub) : string := host h ++ "::" ++ app_id h.

(** [Hub.hw_version], [Hub.mac] and [Hub.sw_version]: [self._info.get(key, "unknown")] *)
Definition hw_version (h : Hub) : string := default "unknown" (_info h !! "hw_version").
Definition mac (h : Hub) : string := default "unknown" (_info h !! "mac").
Definition sw_version (h : Hub) : string := default "unknown" (_info h !! "sw_version").

(** [Hub.name] *)
Definition name (h : Hub) : string := "Hubitat Elevation".

(** ** Hub details

    [_parse_details] walks the [div] siblings that follow a tag of the admin
    page.  Of the page it uses, for each sibling, the text of the first
    [div] of class [menu-header] and of the first [div] of class [menu-text]
    below it; a sibling is given here by those two results of [find], [None]
    when [find] finds nothing. *)

Record Group := {
  menu_header : option string;
  menu_text : option string
}.

Definition _DETAILS_MAPPING : gmap string string :=
  list_to_map
    [("Hubitat Elevation" ++ String (ascii_of_nat 174) " Platform Version", "sw_version");
     ("Hardware Version", "hw_version");
     ("Hub UID", "uid");
     ("IP Address", "address");
     ("MAC Address", "mac")].

(** [found.text.strip()], where [found] is the result of a [find]. *)
Definition stripped_text (found : option string) : result string :=
  match found with
  | Some text => Ok (Str.strip text)
  | None => Raise (AttributeError "text")
  end.

(** The [while] loop of [_parse_details]. *)
Fixpoint parse_groups (details : gmap string string) (groups : list Group)
    : result (gmap string string) :=
  match groups with
  | [] => Ok details
  | group :: rest =>
      heading ← stripped_text (menu_header group);
      content ← stripped_text (menu_text group);
      match _DETAILS_MAPPING !! heading with
      | Some key => parse_groups (<[key := content]> details) rest
      | None => parse_groups details rest
      end
  end.

(** [_parse_details(tag)]: [tag] is [None], or a tag given by the [div]
    siblings that follow it. *)
Definition _parse_details (tag : option (list Group)) : result (gmap string string) :=
  match tag with
  | None => Raise (AttributeError "find_next_sibling")
  | Some groups => parse_groups ∅ groups
  end.

(** ** Command arguments *)

(** The [arg] of [send_command], [Optional[Union[str, int]]]. *)
Inductive CommandArg : Type :=
| ArgStr (s : string)
| ArgInt (n : Z).

(** [bool(arg)] *)
Definition arg_truthy (arg : option CommandArg) : bool :=
  match arg with
  | None => false
  | Some (ArgStr s) => negb (String.eqb s "")
  | Some (ArgInt n) => negb (n =? 0)%Z
  end.

(** [f"{arg}"] *)
Definition arg_format (arg : CommandArg) : string :=
  match arg with
  | ArgStr s => s
  | ArgInt n => Str.of_int n
  end.

(** The path [send_command] requests. *)
Definition command_path (device_id command : string) (arg : option CommandArg) : string :=
  let path := "devices/" ++ device_id ++ "/" ++ command in
  match arg with
  | Some a => if arg_truthy arg then path ++ "/" ++ arg_format a else path
  | None => path
  end.

(** ** Effects *)

(** An outgoing [aiohttp.request(method, url, params=params)]. *)
Record Request := {
  method : string;
  req_url : string;
  params : list (string * string)
}.

(** The hub object together with what the outside observes of a run: the
    requests sent and the listeners called, both oldest first. *)
Record World := {
  hub : Hub;
  requests : list Request;
  called : list Listener
}.

Definition with_hub (h : Hub) (w : World) : World :=
  {| hub := h; requests := requests w; called := called w |}.

(** A computation runs on a world, ends normally or with an exception, and
    leaves a world behind; what was mutated before a [raise] stays mutated. *)
Definition M (A : Type) : Type := World → result A * World.

#[global] Instance M_ret : MRet M := λ A a w, (Ok a, w).
#[global] Instance M_bind : MBind M := λ A B f m w,
  match m w with
  | (Ok a, w') => f a w'
  | (Raise e, w') => (Raise e, w')
  end.

Definition raise {A} (e : exn) : M A := λ w, (Raise e, w).
Definition lift {A} (r : result A) : M A := λ w, (r, w).
Definition get_hub : M Hub := λ w, (Ok (hub w), w).
Definition modify_hub (f : Hub → Hub) : M unit := λ w, (Ok tt, with_hub (f (hub w)) w).

(** ** Sample data

    The device of the docstring of [_load_device], a hub that caches it, an
    event for it, and a few environments. *)

Module Sample.

Definition level : pyval :=
  PDict [("dataType", PStr "NUMBER"); ("currentValue", PInt 10); ("name", PStr "level")].

Definition switch : pyval :=
  PDict [("values", PList [PStr "on"; PStr "off"]); ("name", PStr "switch");
         ("currentValue", PStr "off"); ("dataType", PStr "ENUM")].

Definition bedroom_light : pyval :=
  PDict [("id", PStr "1922");
         ("name", PStr "Generic Z-Wave Smart Dimmer");
         ("label", PStr "Bedroom Light");
         ("attributes", PList [level; switch]);
         ("capabilities", PList [PStr "Switch"; PStr "Configuration"; PStr "SwitchLevel"]);
         ("commands", PList [PStr "configure"; PStr "flash"; PStr "off"; PStr "on";
                             PStr "refresh"; PStr "setLevel"])].

(** A started hub at 10.0.1.99 caching the bedroom light, with listeners
    1 and 2 on it and listener 7 on an id that was never loaded. *)
Definition the_hub : Hub :=
  {| api_url := "http://10.0.1.99/apps/api/12"; app_id := "12"; host := "10.0.1.99";
     scheme := "http"; token := "secret"; address := "0.0.0.0"; port := 0;
     _mac := None; _started := true;
     _devices := {["1922" := bedroom_light]};
     _info := ∅;
     _listeners := <["42" := [7%nat]]> {["1922" := [1%nat; 2%nat]]};
     _server := Some {| url := "http://10.0.1.5:39501"; running := true |} |}.

Definition world : World := {| hub := the_hub; requests := []; called := [] |}.

Definition event (device_id attr_name : string) (value : pyval) : pyval :=
  PDict [("content", PDict [("deviceId", PStr device_id); ("name", PStr attr_name);
                            ("value", value); ("displayName", PStr "Bedroom Light")])].

(** Listeners that all return, and listeners of which number 1 raises. *)
Definition quiet : Listener → option exn := λ _, None.
Definition first_raises : Listener → option exn :=
  λ l, if (l =? 1)%nat then Some (ListenerError 1) else None.

(** A network that answers every request with the same response. *)
Definition answers (resp : Response) : list Request → Request → result Response :=
  λ _ _, Ok resp.

Definition ok_response (body : pyval) : Response := {| status := 200; json := Some body |}.

(** The checks of urllib.parse, never reached by the hosts used here. *)
Definition no_check : string → bool := λ _, true.

(** The Maker API of a hub with the bedroom light as its only device: the
    device list, the detail of device 1922, and 404 for anything else. *)
Definition listing : pyval :=
  PList [PDict [("id", PStr "1922"); ("name", PStr "Generic Z-Wave Smart Dimmer");
                ("label", PStr "Bedroom Light")]].

Definition maker_api : list Request → Request → result Response :=
  λ _ rq,
    if String.eqb (req_url rq) "http://10.0.1.99/apps/api/12/devices"
    then Ok (ok_response listing)
    else if String.eqb (req_url rq) "http://10.0.1.99/apps/api/12/devices/1922"
    then Ok (ok_response bedroom_light)
    else Ok {| status := 404; json := None |}.

(** What the hub answers for device 1922 once the light has been dimmed
    and switched on; the answer has no [label]. *)
Definition dimmed_light : pyval :=
  PDict [("id", PStr "1922");
         ("name", PStr "Generic Z-Wave Smart Dimmer");
         ("attributes",
          PList [PDict [("dataType", PStr "NUMBER"); ("currentValue", PInt 55);
                        ("name", PStr "level")];
                 PDict [("name", PStr "switch"); ("currentValue", PStr "on")]])].

(** A network that is down. *)
Definition offline : list Request → Request → result Response :=
  λ _ _, Raise (ClientError "Cannot connect to host").

(** The hub as constructed, before anything is loaded. *)
Definition new_hub : Hub :=
  {| api_url := "http://10.0.1.99/apps/api/12"; app_id := "12"; host := "10.0.1.99";
     scheme := "http"; token := "secret"; address := "0.0.0.0"; port := 0;
     _mac := None; _started := false; _devices := ∅; _info := ∅; _listeners := ∅;
     _server := None |}.

Definition new_world : World := {| hub := new_hub; requests := []; called := [] |}.

(** A second device, and a hub that caches both. *)
Definition porch_light : pyval :=
  PDict [("id", PStr "1923"); ("name", PStr "Generic Zigbee Outlet");
         ("label", PStr "Porch Light");
         ("attributes", PList [PDict [("name", PStr "switch"); ("currentValue", PStr "on");
                                      ("dataType", PStr "ENUM")]]);
         ("capabilities", PList [PStr "Switch"]);
         ("commands", PList [PStr "off"; PStr "on"])].

Definition home : World :=
  {| hub := set_devices (λ ds, <["1923" := porch_light]> ds) the_hub;
     requests := []; called := [] |}.

(** The siblings of the "Hub Details" heading of an admin page: the
    hardware version is given twice and one label is not a known one. *)
Definition details : list Group :=
  [{| menu_header := Some " Hardware Version "; menu_text := Some " Rev C-5 " |};
   {| menu_header := Some "Zigbee Channel"; menu_text := Some "20" |};
   {| menu_header := Some "MAC Address"; menu_text := Some "34:E1:D1:80:00:01 " |};
   {| menu_header := Some "Hardware Version"; menu_text := Some "Rev C-7" |}].

Definition info : gmap string string :=
  <["hw_version" := "Rev C-7"]> (<["mac" := "34:E1:D1:80:00:01"]> ∅).

Definition informed_hub : Hub :=
  {| api_url := "http://10.0.1.99/apps/api/12"; app_id := "12"; host := "10.0.1.99";
     scheme := "http"; token := "secret"; address := "0.0.0.0"; port := 0;
     _mac := None; _started := false; _devices := ∅; _info := info; _listeners := ∅;
     _server := None |}.

End Sample.

Section Environment.

(** The network: the response to a request, or the exception the transport
    raises, given the requests sent before. *)
Variable http : list Request → Request → result Response.

(** What calling a listener does: return ([None]) or raise.  A listener
    that calls back into the hub is not covered. *)
Variable listener_run : Listener → option exn.

(** Two checks of urllib.parse on a network location, taken as given:
    [_check_bracketed_netloc] accepts the bracketed host, and
    [_checknetloc] accepts a non-ASCII location after NFKC normalisation. *)
Variable bracketed_netloc_ok : string → bool.
Variable nfkc_netloc_ok : string → bool.

Definition http_request (rq : Request) : M Response := λ w,
  (http (requests w) rq,
   {| hub := hub w; requests := requests w ++ [rq]; called := called w |}).

Definition call (l : Listener) : M unit := λ w,
  (match listener_run l with
   | None => Ok tt
   | Some e => Raise e
   end,
   {| hub := hub w; requests := requests w; called := called w ++ [l] |}).

(** *** The request layer *)

(** The body of the [async with] block of [_api_request]. *)
Definition check_response (resp : Response) : result pyval :=
  if (400 <=? status resp)%Z then
    if (status resp =? 401)%Z then Raise InvalidToken else Raise (RequestError resp)
  else
    match json resp with
    | None => Raise DecodeError
    | Some body =>
        has_error ← py_contains "error" body;
        if has_error : bool then
          err ← py_getitem body "error";
          if py_truthy err then Raise (RequestError resp) else Ok body
        else Ok body
    end.

(** [Hub._api_request] *)
Definition _api_request (path : string) (method : string) : M pyval :=
  h ← get_hub;
  resp ← http_request {| method := method;
                         req_url := api_url h ++ "/" ++ path;
                         params := [("access_token", token h)] |};
  lift (check_response resp).

(** [Hub._check_api] *)
Definition _check_api : M unit :=
  _ ← _api_request "devices" "GET"; mret tt.

(** *** The device registry *)

(** [Hub._load_device].  The [try] around the store re-raises whatever it
    catches, and storing under a [str] key does not fail. *)
Definition _load_device (device_id : string) (force_refresh : bool) : M unit :=
  h ← get_hub;
  if force_refresh || negb (bool_decide (is_Some (_devices h !! device_id))) then
    body ← _api_request ("devices/" ++ device_id) "GET";
    modify_hub (set_devices (λ ds, <[device_id := body]> ds))
  else mret tt.

(** [Hub.refresh_device] *)
Definition refresh_device (device_id : string) : M unit :=
  _load_device device_id true.

(** The loop of [_update_device_attr] over the attributes, with the
    [raise] that follows it.  The result is the attribute sequence after
    the in-place assignment [attr["currentValue"] = value]. *)
Fixpoint update_attr_loop (device_id attr_name : string) (value : pyval)
    (attrs : list pyval) : result (list pyval) :=
  match attrs with
  | [] => Raise (InvalidAttribute
                   ("Device " ++ device_id ++ " has no attribute " ++ attr_name))
  | attr :: rest =>
      n ← py_getitem attr "name";
      if py_eq_str n attr_name then
        attr' ← py_setitem attr "currentValue" value;
        Ok (attr' :: rest)
      else
        rest' ← update_attr_loop device_id attr_name value rest;
        Ok (attr :: rest')
  end.

(** The object graph under [self._devices] is a tree: every entry is a
    freshly decoded body and the class never shares parts of one.  The
    assignment to the attribute found by the loop is therefore the same
    tree with that one [dict] changed; only the items of a [list] can be
    found, the items of other iterables being strings. *)
Definition put_attributes (state attrs : pyval) (items' : list pyval) : pyval :=
  match state, attrs with
  | PDict d, PList _ => PDict (dict_set d "attributes" (PList items'))
  | _, _ => state
  end.

Definition update_state (device_id attr_name : string) (value state : pyval)
    : result pyval :=
  attrs ← py_getitem state "attributes";
  items ← py_iter attrs;
  items' ← update_attr_loop device_id attr_name value items;
  Ok (put_attributes state attrs items').

(** [Hub._update_device_attr]; the [KeyError] of the lookup is caught and
    the method returns. *)
Definition _update_device_attr (device_id attr_name : string) (value : pyval) : M unit :=
  h ← get_hub;
  match _devices h !! device_id with
  | None => mret tt
  | Some state =>
      state' ← lift (update_state device_id attr_name value state);
      modify_hub (set_devices (λ ds, <[device_id := state']> ds))
  end.

(** *** Events *)

(** [for listener in listeners: listener()] *)
Fixpoint dispatch (listeners : list Listener) : M unit :=
  match listeners with
  | [] => mret tt
  | l :: rest => _ ← call l; dispatch rest
  end.

(** [Hub.process_event].  The device id and the attribute name go to
    parameters annotated [str]; an event that carries another type there is
    cut off with [IllTyped] at [as_str], after the three subscripts. *)
Definition process_event (event : pyval) : M unit :=
  content ← lift (py_getitem event "content");
  device_id ← lift (py_getitem content "deviceId");
  attr_name ← lift (py_getitem content "name");
  value ← lift (py_getitem content "value");
  device_id ← lift (as_str device_id);
  attr_name ← lift (as_str attr_name);
  _ ← _update_device_attr device_id attr_name value;
  h ← get_hub;
  match _listeners h !! device_id with
  | Some listeners => dispatch listeners
  | None => mret tt
  end.

(** *** Commands and shutdown *)

(** [Hub.send_command] *)
Definition send_command (device_id command : string) (arg : option CommandArg) : M pyval :=
  _api_request (command_path device_id command arg) "GET".

(** [Hub.stop].  Reading [self._server] raises [AttributeError] while the
    attribute is absent; a server object is truthy. *)
Definition stop : M unit :=
  h ← get_hub;
  match _server h with
  | None => raise (AttributeError "_server")
  | Some srv =>
      _ ← modify_hub (set_server (Some (server_stop srv)));
      _ ← modify_hub (set_listeners (λ _, ∅));
      modify_hub (set_started false)
  end.

(** *** Construction *)

(** [Hub.__init__], with [port] and [address] defaulting to [None]. *)
Definition __init__ (host app_id access_token : string) (port : option Z)
    (address : option string) : result Hub :=
  if String.eqb host "" || String.eqb app_id "" || String.eqb access_token "" then
    Raise InvalidConfig
  else
    match UrlParse.urlparse bracketed_netloc_ok nfkc_netloc_ok host with
    | None => Raise ValueError
    | Some host_url =>
        let scheme := if String.eqb (UrlParse.scheme host_url) "" then "http"
                      else UrlParse.scheme host_url in
        let host := if String.eqb (UrlParse.netloc host_url) "" then UrlParse.path host_url
                    else UrlParse.netloc host_url in
        Ok {| scheme := scheme;
              host := host;
              app_id := app_id;
              token := access_token;
              api_url := scheme ++ "://" ++ host ++ "/apps/api/" ++ app_id;
              address := match address with
                         | Some a => if String.eqb a "" then "0.0.0.0" else a
                         | None => "0.0.0.0"
                         end;
              port := match port with
                      | Some p => if (p =? 0)%Z then 0%Z else p
                      | None => 0%Z
                      end;
              _mac := None;
              _started := false;
              _devices := ∅;
              _info := ∅;
              _listeners := ∅;
              _server := None |}
    end.


(** *** The event URL and the device list *)

(** [Hub.set_event_url] *)
Definition set_event_url (event_url : string) : M unit :=
  _ ← _api_request ("postURL/" ++ UrlParse.quote event_url) "GET"; mret tt.

(** The loop of [_load_devices]:
    [for dev in devices: await self._load_device(dev["id"], force_refresh)].
    [_load_device] takes a [str], and the registry is a [Dict[str, ...]]:
    a listed [id] that is not a [str] would be formatted into the path and
    become a key of another type, which the registry of this development
    cannot hold.  Such a run is cut off with [IllTyped] at [as_str]; the
    statements about the loop are about lists whose ids are strings. *)
Fixpoint load_each (devices : list pyval) (force_refresh : bool) : M unit :=
  match devices with
  | [] => mret tt
  | dev :: rest =>
      device_id ← lift (py_getitem dev "id");
      device_id ← lift (as_str device_id);
      _ ← _load_device device_id force_refresh;
      load_each rest force_refresh
  end.

(** [Hub._load_devices] *)
Definition _load_devices (force_refresh : bool) : M unit :=
  h ← get_hub;
  if force_refresh || (size (_devices h) =? 0)%nat then
    devices ← _api_request "devices" "GET";
    items ← lift (py_iter devices);
    load_each items force_refresh
  else mret tt.

(** ** Notions used by the statements *)

(** The classification of section 4.1 of the specification, word for word:
    401 is [InvalidToken]; any other status from 400 on is [RequestError];
    below 400 a truthy [error] field in the decoded body is
    [RequestError]; otherwise the decoded body is the result. *)
Definition has_truthy_error_field (body : pyval) : bool :=
  match body with
  | PDict d => match dict_get d "error" with
               | Some err => py_truthy err
               | None => false
               end
  | _ => false
  end.

Definition api_outcome_spec (resp : Response) (body : pyval) : result pyval :=
  if (status resp =? 401)%Z then Raise InvalidToken
  else if (400 <=? status resp)%Z then Raise (RequestError resp)
  else if has_truthy_error_field body then Raise (RequestError resp)
  else Ok body.

(** The bodies on which Python evaluates
    ["error" in body and body["error"]] without a [TypeError]. *)
Definition error_test_defined (body : pyval) : bool :=
  match body with
  | PDict _ => true
  | PList items => negb (existsb (λ x, py_eq_str x "error") items)
  | PStr s => negb (Str.contains "error" s)
  | _ => false
  end.

(** The request [_api_request] sends for [path]. *)
Definition api_call (h : Hub) (path method : string) : Request :=
  {| method := method; req_url := api_url h ++ "/" ++ path;
     params := [("access_token", token h)] |}.

(** [event] carries an update of [attr_name] to [value] for [device_id]. *)
Definition is_event (event : pyval) (device_id attr_name : string) (value : pyval) : Prop :=
  ∃ content,
    py_getitem event "content" = Ok content ∧
    py_getitem content "deviceId" = Ok (PStr device_id) ∧
    py_getitem content "name" = Ok (PStr attr_name) ∧
    py_getitem content "value" = Ok value.

(** The listeners registered for a device id, in registration order. *)
Definition registered (h : Hub) (device_id : string) : list Listener :=
  default [] (_listeners h !! device_id).

(** Of a sequence of listeners, those up to and including the first one
    that raises, and what calling them in turn amounts to. *)
Fixpoint invoked (listeners : list Listener) : list Listener :=
  match listeners with
  | [] => []
  | l :: rest => match listener_run l with
                 | None => l :: invoked rest
                 | Some _ => [l]
                 end
  end.

Fixpoint outcome (listeners : list Listener) : result unit :=
  match listeners with
  | [] => Ok tt
  | l :: rest => match listener_run l with
                 | None => outcome rest
                 | Some e => Raise e
                 end
  end.

Definition with_called (ls : list Listener) (w : World) : World :=
  {| hub := hub w; requests := requests w; called := (called w ++ ls)%list |}.

Definition with_request (rq : Request) (w : World) : World :=
  {| hub := hub w; requests := (requests w ++ [rq])%list; called := called w |}.

(** A device entry of the documented shape: a [dict] whose [attributes]
    is a [list] of [dict]s that each have a [name]. *)
Definition attribute_shape (attr : pyval) : bool :=
  match attr with
  | PDict a => bool_decide (is_Some (dict_get a "name"))
  | _ => false
  end.

Definition device_shape (state : pyval) : bool :=
  match state with
  | PDict d => match dict_get d "attributes" with
               | Some (PList items) => forallb attribute_shape items
               | _ => false
               end
  | _ => false
  end.

(** The attributes of an entry of that shape, and whether an attribute
    has a given name. *)
Definition attributes_of (state : pyval) : list pyval :=
  match state with
  | PDict d => match dict_get d "attributes" with
               | Some (PList items) => items
               | _ => []
               end
  | _ => []
  end.

Definition attr_named (attr_name : string) (attr : pyval) : bool :=
  match attr with
  | PDict a => match dict_get a "name" with
               | Some n => py_eq_str n attr_name
               | None => false
               end
  | _ => false
  end.

(** [attrs] splits at the first attribute named [attr_name]: the
    attributes before it have other names, and it is the [dict] [a]. *)
Definition first_named (attr_name : string) (attrs pre : list pyval)
    (a : list (string * pyval)) (post : list pyval) : Prop :=
  attrs = (pre ++ PDict a :: post)%list ∧
  Forall (λ x, ∃ n, py_getitem x "name" = Ok n ∧ py_eq_str n attr_name = false) pre ∧
  ∃ n, dict_get a "name" = Some n ∧ py_eq_str n attr_name = true.

(** A bare host name or IPv4 address: letters, digits, dots and hyphens. *)
Definition hostname_char (c : ascii) : bool :=
  Str.is_lower c || Str.is_upper c || Str.is_digit c || Str.contains_char c ".-".

Definition bare_host (s : string) : Prop :=
  s ≠ "" ∧ Str.forallb hostname_char s = true.

(** [s] has no occurrence of the character [x]. *)
Definition avoids (x : ascii) (s : string) : Prop :=
  Str.forallb (λ c, negb (Ascii.eqb c x)) s = true.

(** *** Notions used by further statements *)

(** A request to the Maker API of hub [h]: a GET below the API base URL
    that carries the access token as its only parameter. *)
Definition authorized (h : Hub) (rq : Request) : Prop :=
  method rq = "GET" ∧
  String.prefix (api_url h ++ "/") (req_url rq) = true ∧
  params rq = [("access_token", token h)].

(** The calls a user of the hub can make, and a run of such calls one after
    the other; the caller may catch what a call raises and go on. *)
Inductive Operation : Type :=
| ProcessEvent (event : pyval)
| LoadDevice (device_id : string) (force_refresh : bool)
| LoadDevices (force_refresh : bool)
| RefreshDevice (device_id : string)
| SendCommand (device_id command : string) (arg : option CommandArg)
| SetEventUrl (event_url : string)
| CheckApi
| Stop.

Definition discard {A} (m : M A) : M unit := _ ← m; mret tt.

Definition run (op : Operation) : M unit :=
  match op with
  | ProcessEvent event => process_event event
  | LoadDevice device_id force_refresh => _load_device device_id force_refresh
  | LoadDevices force_refresh => _load_devices force_refresh
  | RefreshDevice device_id => refresh_device device_id
  | SendCommand device_id command arg => discard (send_command device_id command arg)
  | SetEventUrl event_url => set_event_url event_url
  | CheckApi => _check_api
  | Stop => stop
  end.

Definition run_all (ops : list Operation) (w : World) : World :=
  fold_left (λ w op, snd (run op w)) ops w.

(** The fields [__init__] computes from its arguments. *)
Definition same_config (h h' : Hub) : Prop :=
  api_url h' = api_url h ∧ app_id h' = app_id h ∧ host h' = host h ∧
  scheme h' = scheme h ∧ token h' = token h ∧ address h' = address h ∧ port h' = port h.

(** [w'] continues [w]: the configuration is the same, every cached device
    id is still cached, and what was sent since are requests to the hub's
    own Maker API. *)
Definition continues (w w' : World) : Prop :=
  same_config (hub w) (hub w') ∧
  (∀ device_id, is_Some (_devices (hub w) !! device_id) →
                is_Some (_devices (hub w') !! device_id)) ∧
  ∃ sent, requests w' = (requests w ++ sent)%list ∧ Forall (authorized (hub w)) sent.

Definition keeps {A} (m : M A) : Prop := ∀ w, continues w (snd (m w)).

(** A network location: a bare host, possibly followed by a port. *)
Definition netloc_char (c : ascii) : bool := hostname_char c || Ascii.eqb c ":".

(** The characters [quote] writes: the always safe ones and the percent
    sign of an escape (the hexadecimal digits of an escape are always safe
    themselves). *)
Definition quoted_char (c : ascii) : bool := UrlParse.always_safe c || Ascii.eqb c "%".

(** Reading back the first character of a quoted text: the inverse of
    [UrlParse.quote_char], used to show that [quote] loses nothing. *)
Definition hex_value (c : ascii) : option nat :=
  if Str.is_digit c then Some (Str.code c - 48)%nat
  else if ((65 <=? Str.code c) && (Str.code c <=? 70))%nat then Some (Str.code c - 55)%nat
  else None.

Definition percent_byte (s : string) : option (nat * string) :=
  match s with
  | String "%" (String a (String b rest)) =>
      hi ← hex_value a; lo ← hex_value b; Some (16 * hi + lo, rest)%nat
  | _ => None
  end.

Definition unquote_head (s : string) : option (ascii * string) :=
  match s with
  | EmptyString => None
  | String c rest =>
      if Ascii.eqb c "%" then
        '(b1, rest1) ← percent_byte s;
        if (b1 <? 128)%nat then Some (ascii_of_nat b1, rest1)
        else '(b2, rest2) ← percent_byte rest1;
             Some (ascii_of_nat ((b1 - 192) * 64 + (b2 - 128)), rest2)
      else Some (c, rest)
  end.

(** The fields [_parse_details] can fill. *)
Definition detail_fields : list string :=
  ["sw_version"; "hw_version"; "uid"; "address"; "mac"].

(** What a sibling says about the field [key]: its stripped text, when both
    of its parts are there and its stripped heading is the label of [key]. *)
Definition detail_for (key : string) (g : Group) : option string :=
  heading ← menu_header g;
  content ← menu_text g;
  if bool_decide (_DETAILS_MAPPING !! Str.strip heading = Some key)
  then Some (Str.strip content) else None.

(** A sibling without one of the two parts. *)
Definition incomplete (g : Group) : Prop := menu_header g = None ∨ menu_text g = None.

(** ** Association lists and loops *)

Lemma dict_get_set_eq d k v : dict_get (dict_set d k v) k = Some v.
Proof.
  induction d as [|[k' v'] d IH]; simpl.
  - by rewrite String.eqb_refl.
  - destruct (String.eqb k' k) eqn:E; simpl; by rewrite E.
Qed.

Lemma dict_get_set_ne d k k' v : k' ≠ k → dict_get (dict_set d k v) k' = dict_get d k'.
Proof.
  intros Hne. induction d as [|[k0 v0] d IH]; simpl.
  - destruct (String.eqb k k') eqn:E; [|done].
    apply String.eqb_eq in E. congruence.
  - destruct (String.eqb k0 k) eqn:E; simpl.
    + apply String.eqb_eq in E. subst k0.
      destruct (String.eqb k k') eqn:E'; [|done].
      apply String.eqb_eq in E'. congruence.
    + by rewrite IH.
Qed.

Lemma dict_set_nonempty d k v : dict_set d k v ≠ [].
Proof. destruct d as [|[k' v'] d]; simpl; [done|]. by destruct (String.eqb k' k). Qed.

Lemma py_getitem_ok v k x : py_getitem v k = Ok x → ∃ d, v = PDict d ∧ dict_get d k = Some x.
Proof.
  destruct v; simpl; try discriminate.
  destruct (dict_get entries k) eqn:E; [|discriminate].
  intros [= <-]. eauto.
Qed.

(** ** The request layer *)

Lemma check_response_spec resp body :
  ((status resp < 400)%Z → json resp = Some body ∧ error_test_defined body = true) →
  check_response resp = api_outcome_spec resp body.
Proof.
  intros Hbody. unfold check_response, api_outcome_spec.
  destruct (400 <=? status resp)%Z eqn:Hge.
  - by destruct (status resp =? 401)%Z.
  - apply Z.leb_gt in Hge.
    destruct (Z.eqb_spec (status resp) 401) as [E|_]; [lia|].
    destruct (Hbody Hge) as [-> Hdef].
    destruct body; simpl in *; try discriminate.
    + apply negb_true_iff in Hdef. by rewrite Hdef.
    + apply negb_true_iff in Hdef. by rewrite Hdef.
    + destruct (dict_get entries "error") as [err|]; simpl; [|done].
      by destruct (py_truthy err).
Qed.

Lemma api_request_run path method w :
  _api_request path method w =
    (match http (requests w) (api_call (hub w) path method) with
     | Ok resp => check_response resp
     | Raise e => Raise e
     end,
     with_request (api_call (hub w) path method) w).
Proof.
  unfold _api_request, mbind, M_bind, get_hub, http_request, lift, with_request, api_call.
  simpl. by destruct (http _ _).
Qed.

(** C1 (amended).  A request whose response has a status from 400 on, or a
    decoded body on which the test for an [error] field is defined (a JSON
    object, an array without the element "error", a string without the text
    "error"), is classified as the specification says: 401 raises
    [InvalidToken], any other status from 400 on raises [RequestError],
    a truthy [error] field below 400 raises [RequestError], and otherwise
    the decoded body is returned as it is.  The request is sent once. *)
Theorem api_request_classification path method w resp body :
  http (requests w) (api_call (hub w) path method) = Ok resp →
  ((status resp < 400)%Z → json resp = Some body ∧ error_test_defined body = true) →
  _api_request path method w =
    (api_outcome_spec resp body, with_request (api_call (hub w) path method) w).
Proof.
  intros Hresp Hbody. rewrite api_request_run, Hresp.
  by rewrite (check_response_spec resp body).
Qed.

(** Outside those bodies the test itself fails: a number, a boolean or
    [null], an array holding "error" or a string containing it raise
    [TypeError] when the status is below 400. *)
Lemma check_response_type_error resp body :
  (status resp < 400)%Z → json resp = Some body → error_test_defined body = false →
  check_response resp = Raise TypeError.
Proof.
  intros Hlt Hjson Hdef. unfold check_response. rewrite Hjson.
  destruct (Z.leb_spec 400 (status resp)); [lia|].
  destruct body; simpl in *; try done.
  - apply negb_false_iff in Hdef. by rewrite Hdef.
  - apply negb_false_iff in Hdef. by rewrite Hdef.
Qed.

(** ** Listeners *)

(** Registration appends: the order of the list is the order of the calls
    to [add_device_listener], and a callback added twice is listed twice. *)
Lemma registered_add device_id listener h :
  registered (add_device_listener device_id listener h) device_id =
    (registered h device_id ++ [listener])%list.
Proof. unfold registered, add_device_listener. simpl. by rewrite lookup_insert_eq. Qed.

Lemma registered_add_other device_id other listener h :
  other ≠ device_id →
  registered (add_device_listener device_id listener h) other = registered h other.
Proof.
  intros Hne. unfold registered, add_device_listener. simpl.
  by rewrite lookup_insert_ne.
Qed.

Lemma registered_remove device_id h :
  registered (remove_device_listeners device_id h) device_id = [].
Proof. unfold registered, remove_device_listeners. simpl. by rewrite lookup_insert_eq. Qed.

Lemma with_called_nil w : with_called [] w = w.
Proof. destruct w. unfold with_called. simpl. by rewrite app_nil_r. Qed.

Lemma dispatch_run listeners w :
  dispatch listeners w = (outcome listeners, with_called (invoked listeners) w).
Proof.
  revert w. induction listeners as [|l rest IH]; intros w; simpl.
  - by rewrite with_called_nil.
  - unfold mbind, M_bind, call. destruct (listener_run l) as [e|]; [done|].
    rewrite IH. unfold with_called. simpl. by rewrite <- app_assoc.
Qed.

Lemma all_return listeners :
  Forall (λ l, listener_run l = None) listeners →
  outcome listeners = Ok tt ∧ invoked listeners = listeners.
Proof.
  induction 1 as [|l rest Hl _ [IH1 IH2]]; simpl; [done|].
  rewrite Hl. by rewrite IH2.
Qed.

(** ** The attribute loops *)

Lemma has_attr_loop_true attr_name attrs :
  has_attr_loop attr_name attrs = Ok true →
  ∃ pre a post, first_named attr_name attrs pre a post.
Proof.
  induction attrs as [|attr rest IH]; simpl; [discriminate|].
  destruct (py_getitem attr "name") as [n|e] eqn:Hn; simpl; [|discriminate].
  destruct (py_eq_str n attr_name) eqn:Heq.
  - intros _. apply py_getitem_ok in Hn as (a & -> & Ha).
    exists [], a, rest. repeat split; eauto.
  - intros (pre & a & post & -> & Hpre & Ha)%IH.
    exists (attr :: pre), a, post. repeat split; eauto.
Qed.

Lemma has_attr_loop_first_named attr_name attrs pre a post :
  first_named attr_name attrs pre a post → has_attr_loop attr_name attrs = Ok true.
Proof.
  intros (-> & Hpre & n & Hn & Heq).
  induction Hpre as [|x pre (m & Hm & Hne) _ IH]; simpl.
  - by rewrite Hn; simpl; rewrite Heq.
  - by rewrite Hm; simpl; rewrite Hne.
Qed.

Lemma get_attr_loop_first_named attr_name attrs pre a post :
  first_named attr_name attrs pre a post →
  get_attr_loop attr_name attrs = Ok (Some (PDict a)).
Proof.
  intros (-> & Hpre & n & Hn & Heq).
  induction Hpre as [|x pre (m & Hm & Hne) _ IH]; simpl.
  - by rewrite Hn; simpl; rewrite Heq.
  - by rewrite Hm; simpl; rewrite Hne.
Qed.

Lemma update_attr_loop_first_named device_id attr_name value attrs pre a post :
  first_named attr_name attrs pre a post →
  update_attr_loop device_id attr_name value attrs =
    Ok (pre ++ PDict (dict_set a "currentValue" value) :: post)%list.
Proof.
  intros (-> & Hpre & n & Hn & Heq).
  induction Hpre as [|x pre (m & Hm & Hne) _ IH]; simpl.
  - by rewrite Hn; simpl; rewrite Heq.
  - rewrite Hm; simpl; rewrite Hne. by rewrite IH.
Qed.

Lemma first_named_updated attr_name value attrs pre a post :
  first_named attr_name attrs pre a post →
  first_named attr_name (pre ++ PDict (dict_set a "currentValue" value) :: post)
    pre (dict_set a "currentValue" value) post.
Proof.
  intros (_ & Hpre & n & Hn & Heq). repeat split; [done|].
  exists n. by rewrite dict_get_set_ne.
Qed.

Lemma has_attr_loop_false device_id attr_name value attrs :
  has_attr_loop attr_name attrs = Ok false →
  update_attr_loop device_id attr_name value attrs =
    Raise (InvalidAttribute ("Device " ++ device_id ++ " has no attribute " ++ attr_name)) ∧
  get_attr_loop attr_name attrs = Ok None.
Proof.
  induction attrs as [|attr rest IH]; simpl; [done|].
  destruct (py_getitem attr "name") as [n|e]; simpl; [|discriminate].
  destruct (py_eq_str n attr_name); [discriminate|].
  intros [-> ->]%IH. done.
Qed.

(** Only a [list] yields a [dict] when iterated: the items of a [str] and
    the keys of a [dict] are strings. *)
Lemma py_iter_dict_item attrs pre a post :
  py_iter attrs = Ok (pre ++ PDict a :: post)%list →
  attrs = PList (pre ++ PDict a :: post).
Proof.
  intros Hiter.
  assert (∀ (A : Type) (f : A → pyval) (l : list A),
            (∀ y, f y ≠ PDict a) → map f l ≠ (pre ++ PDict a :: post)%list) as Hmap.
  { intros A f l Hf Heq.
    assert (PDict a ∈ map f l) as (y & Hy & _)%list_elem_of_fmap; [|by eapply Hf].
    rewrite Heq. apply elem_of_app. right. left. }
  destruct attrs; simpl in Hiter; try discriminate.
  - exfalso. eapply (Hmap _ PStr (Str.chars s)); [done|congruence].
  - congruence.
  - exfalso. eapply (Hmap _ (λ kv, PStr kv.1) entries); [done|congruence].
Qed.

(** What [device_has_attribute] returning [True] says of the registry. *)
Lemma device_has_attribute_true h device_id attr_name :
  device_has_attribute h device_id attr_name = Ok true →
  ∃ d pre a post,
    _devices h !! device_id = Some (PDict d) ∧
    dict_get d "attributes" = Some (PList (pre ++ PDict a :: post)) ∧
    first_named attr_name (pre ++ PDict a :: post) pre a post.
Proof.
  unfold device_has_attribute.
  destruct (_devices h !! device_id) as [state|]; [|discriminate].
  destruct (py_getitem state "attributes") as [attrs|e] eqn:Hattrs; simpl; [|discriminate].
  apply py_getitem_ok in Hattrs as (d & -> & Hd).
  destruct (py_iter attrs) as [items|e] eqn:Hiter; simpl; [|discriminate].
  intros (pre & a & post & Hfirst)%has_attr_loop_true.
  assert (attrs = PList items) as ->
    by (destruct Hfirst as (-> & _); eauto using py_iter_dict_item).
  destruct Hfirst as (-> & Hfirst). exists d, pre, a, post.
  split; [done|]. split; [done|]. by split.
Qed.

Lemma device_has_attribute_false h device_id attr_name :
  device_has_attribute h device_id attr_name = Ok false →
  ∃ state attrs items,
    _devices h !! device_id = Some state ∧
    py_getitem state "attributes" = Ok attrs ∧
    py_iter attrs = Ok items ∧
    has_attr_loop attr_name items = Ok false.
Proof.
  unfold device_has_attribute.
  destruct (_devices h !! device_id) as [state|]; [|discriminate].
  destruct (py_getitem state "attributes") as [attrs|e] eqn:Hattrs; simpl; [|discriminate].
  destruct (py_iter attrs) as [items|e] eqn:Hiter; simpl; [|discriminate].
  intros Hloop. exists state, attrs, items. auto.
Qed.

(** ** The event path *)

Lemma update_device_attr_run device_id attr_name value w :
  _update_device_attr device_id attr_name value w =
    match _devices (hub w) !! device_id with
    | None => (Ok tt, w)
    | Some state =>
        match update_state device_id attr_name value state with
        | Ok state' =>
            (Ok tt, with_hub (set_devices (λ ds, <[device_id := state']> ds) (hub w)) w)
        | Raise e => (Raise e, w)
        end
    end.
Proof.
  unfold _update_device_attr, mbind, M_bind, get_hub, lift, modify_hub, mret, M_ret.
  destruct (_devices (hub w) !! device_id) as [state|]; [|done].
  by destruct (update_state device_id attr_name value state).
Qed.

Lemma process_event_run event device_id attr_name value w :
  is_event event device_id attr_name value →
  process_event event w =
    match _update_device_attr device_id attr_name value w with
    | (Ok _, w') => dispatch (registered (hub w') device_id) w'
    | (Raise e, w') => (Raise e, w')
    end.
Proof.
  intros (content & Hc & Hid & Hname & Hvalue).
  unfold process_event, mbind at 1 2 3 4 5 6 7, M_bind, lift.
  rewrite Hc, Hid, Hname, Hvalue. simpl.
  destruct (_update_device_attr device_id attr_name value w) as [[[]|e] w']; [|done].
  unfold mbind, M_bind, get_hub, registered.
  by destruct (_listeners (hub w') !! device_id).
Qed.

Lemma update_state_first_named device_id attr_name value d pre a post :
  dict_get d "attributes" = Some (PList (pre ++ PDict a :: post)) →
  first_named attr_name (pre ++ PDict a :: post) pre a post →
  update_state device_id attr_name value (PDict d) =
    Ok (PDict (dict_set d "attributes"
                 (PList (pre ++ PDict (dict_set a "currentValue" value) :: post)))).
Proof.
  intros Hd Hfirst. unfold update_state. simpl. rewrite Hd. simpl.
  by rewrite (update_attr_loop_first_named _ _ _ _ _ _ _ Hfirst).
Qed.

(** The whole effect of an event on a known attribute of a cached device. *)
Lemma process_event_known event device_id attr_name value w :
  is_event event device_id attr_name value →
  device_has_attribute (hub w) device_id attr_name = Ok true →
  ∃ d pre a post,
    _devices (hub w) !! device_id = Some (PDict d) ∧
    dict_get d "attributes" = Some (PList (pre ++ PDict a :: post)) ∧
    first_named attr_name (pre ++ PDict a :: post) pre a post ∧
    process_event event w =
      (outcome (registered (hub w) device_id),
       with_called (invoked (registered (hub w) device_id))
         (with_hub
            (set_devices
               (λ ds, <[device_id :=
                          PDict (dict_set d "attributes"
                                   (PList (pre ++ PDict (dict_set a "currentValue" value)
                                               :: post)))]> ds)
               (hub w)) w)).
Proof.
  intros Hev (d & pre & a & post & Hdev & Hd & Hfirst)%device_has_attribute_true.
  exists d, pre, a, post. split; [done|]. split; [done|]. split; [done|].
  rewrite (process_event_run _ _ _ _ _ Hev), update_device_attr_run, Hdev.
  rewrite (update_state_first_named _ _ _ _ _ _ _ Hd Hfirst).
  by rewrite dispatch_run.
Qed.

(** C2 (amended).  An event for a cached device and an attribute the device
    has sets that attribute's [currentValue] to the event's value and then
    calls the listeners registered for the device id in registration order,
    each once, up to and including the first one that raises; what that
    listener raises reaches the caller.  When no listener raises, every
    registered listener is called exactly once and the call returns. *)
Theorem process_event_updates_and_notifies event device_id attr_name value w :
  is_event event device_id attr_name value →
  device_has_attribute (hub w) device_id attr_name = Ok true →
  let listeners := registered (hub w) device_id in
  ∃ w' attr,
    process_event event w = (outcome listeners, w') ∧
    get_device_attribute (hub w') device_id attr_name = Ok (Some attr) ∧
    py_getitem attr "currentValue" = Ok value ∧
    called w' = (called w ++ invoked listeners)%list ∧
    (Forall (λ l, listener_run l = None) listeners →
     outcome listeners = Ok tt ∧ invoked listeners = listeners).
Proof.
  intros Hev Hhas listeners.
  destruct (process_event_known _ _ _ value _ Hev Hhas)
    as (d & pre & a & post & Hdev & Hd & Hfirst & Hrun).
  eexists _, (PDict (dict_set a "currentValue" value)).
  split; [exact Hrun|]. split; [|split; [|split]].
  - unfold get_device_attribute. simpl. rewrite lookup_insert_eq. simpl.
    destruct (dict_set d "attributes" _) eqn:Hset; [by apply dict_set_nonempty in Hset|].
    rewrite <- Hset, dict_get_set_eq. simpl.
    eapply get_attr_loop_first_named, first_named_updated, Hfirst.
  - simpl. by rewrite dict_get_set_eq.
  - done.
  - apply all_return.
Qed.

(** C3 (amended).  An event for a device id that is not in the registry
    changes nothing in the hub and the update itself raises nothing; the
    listeners registered for that id are still called, in registration
    order, up to the first one that raises.  With no listener registered
    for the id the event is a no-op. *)
Theorem process_event_unknown_device event device_id attr_name value w :
  is_event event device_id attr_name value →
  _devices (hub w) !! device_id = None →
  let listeners := registered (hub w) device_id in
  process_event event w = (outcome listeners, with_called (invoked listeners) w) ∧
  hub (snd (process_event event w)) = hub w ∧
  (listeners = [] → process_event event w = (Ok tt, w)).
Proof.
  intros Hev Hdev listeners.
  assert (process_event event w = (outcome listeners, with_called (invoked listeners) w))
    as Hrun.
  { rewrite (process_event_run _ _ _ _ _ Hev), update_device_attr_run, Hdev.
    by rewrite dispatch_run. }
  rewrite Hrun. split; [done|]. split; [done|].
  intros ->. simpl. by rewrite with_called_nil.
Qed.

(** C4.  An event for a cached device that names an attribute the device
    does not have raises [InvalidAttribute] to the caller of
    [process_event]; no listener is called and nothing is changed. *)
Theorem process_event_unknown_attribute event device_id attr_name value w :
  is_event event device_id attr_name value →
  device_has_attribute (hub w) device_id attr_name = Ok false →
  process_event event w =
    (Raise (InvalidAttribute ("Device " ++ device_id ++ " has no attribute " ++ attr_name)),
     w).
Proof.
  intros Hev (state & attrs & items & Hdev & Hattrs & Hiter & Hloop)%device_has_attribute_false.
  rewrite (process_event_run _ _ _ _ _ Hev), update_device_attr_run, Hdev.
  unfold update_state. rewrite Hattrs. simpl. rewrite Hiter. simpl.
  by destruct (has_attr_loop_false device_id attr_name value items Hloop) as [-> _].
Qed.

Lemma py_eq_str_false v s : py_eq_str v s = false → v ≠ PStr s.
Proof. intros Hne ->. simpl in Hne. by rewrite String.eqb_refl in Hne. Qed.

(** Looking up another name goes past the updated attribute as it went
    past the attribute before the update. *)
Lemma get_attr_loop_other attr_name other value pre a post :
  first_named attr_name (pre ++ PDict a :: post) pre a post →
  other ≠ attr_name →
  get_attr_loop other (pre ++ PDict (dict_set a "currentValue" value) :: post) =
    get_attr_loop other (pre ++ PDict a :: post).
Proof.
  intros (_ & _ & n & Hn & Heq) Hother.
  induction pre as [|x pre IH]; simpl.
  - rewrite dict_get_set_ne by done. rewrite Hn. simpl.
    destruct n; simpl in Heq; try discriminate.
    apply String.eqb_eq in Heq as ->. simpl.
    by rewrite (proj2 (String.eqb_neq attr_name other)).
  - destruct (py_getitem x "name") as [m|e]; simpl; [|done].
    destruct (py_eq_str m other); [done|apply IH].
Qed.

(** C10.  An event for a cached device and an attribute the device has
    changes the [currentValue] of one attribute and nothing else.  The
    attribute changed is the first one of the device whose [name] is the
    event's: the attributes before it have other names, and they and the
    attributes after it are the same objects as before, as are the other
    keys of the changed attribute and the other fields of the device.
    Every other device's entry, the listener registrations and the rest of
    the hub stay as they were, no request is sent, and
    [get_device_attribute] answers as before for every other name. *)
Theorem process_event_frame event device_id attr_name value w :
  is_event event device_id attr_name value →
  device_has_attribute (hub w) device_id attr_name = Ok true →
  let w' := snd (process_event event w) in
  _listeners (hub w') = _listeners (hub w) ∧
  requests w' = requests w ∧
  (∃ ds, hub w' = set_devices (λ _, ds) (hub w)) ∧
  (∀ other, other ≠ device_id → _devices (hub w') !! other = _devices (hub w) !! other) ∧
  (∀ other, other ≠ attr_name →
     get_device_attribute (hub w') device_id other =
       get_device_attribute (hub w) device_id other) ∧
  ∃ state state' pre attr attr' post,
    _devices (hub w) !! device_id = Some state ∧
    _devices (hub w') !! device_id = Some state' ∧
    (∀ k, k ≠ "attributes" → py_getitem state' k = py_getitem state k) ∧
    py_getitem state "attributes" = Ok (PList (pre ++ attr :: post)) ∧
    py_getitem state' "attributes" = Ok (PList (pre ++ attr' :: post)) ∧
    py_getitem attr "name" = Ok (PStr attr_name) ∧
    Forall (λ x, ∃ n, py_getitem x "name" = Ok n ∧ n ≠ PStr attr_name) pre ∧
    (∀ k, k ≠ "currentValue" → py_getitem attr' k = py_getitem attr k) ∧
    py_getitem attr' "currentValue" = Ok value.
Proof.
  intros Hev Hhas w'. subst w'.
  destruct (process_event_known _ _ _ value _ Hev Hhas)
    as (d & pre & a & post & Hdev & Hd & Hfirst & ->).
  simpl. split; [done|]. split; [done|]. split; [by eexists|].
  split; [by intros other Hne; rewrite lookup_insert_ne|].
  split.
  { intros other Hother. unfold get_device_attribute. simpl.
    rewrite lookup_insert_eq, Hdev. simpl.
    destruct (dict_set d "attributes" _) eqn:Hset; [by apply dict_set_nonempty in Hset|].
    rewrite <- Hset, dict_get_set_eq.
    destruct d as [|kv d]; [discriminate|]. rewrite Hd. simpl.
    by apply (get_attr_loop_other attr_name). }
  exists (PDict d), (PDict (dict_set d "attributes"
                              (PList (pre ++ PDict (dict_set a "currentValue" value) :: post)))),
    pre, (PDict a), (PDict (dict_set a "currentValue" value)), post.
  split; [done|]. split; [by rewrite lookup_insert_eq|].
  split; [by intros k Hk; simpl; rewrite dict_get_set_ne|].
  split; [by simpl; rewrite Hd|].
  split; [by simpl; rewrite dict_get_set_eq|].
  destruct Hfirst as (_ & Hpre & n & Hn & Heq).
  split.
  { simpl. rewrite Hn. destruct n; simpl in Heq; try discriminate.
    by apply String.eqb_eq in Heq as ->. }
  split.
  { eapply Forall_impl; [exact Hpre|]. intros x (m & Hm & Hne).
    exists m. split; [done|]. by apply py_eq_str_false. }
  split; [by intros k Hk; simpl; rewrite dict_get_set_ne|].
  simpl. by rewrite dict_get_set_eq.
Qed.

(** ** Loading devices *)

Lemma load_device_run device_id force_refresh w :
  _load_device device_id force_refresh w =
    if force_refresh || negb (bool_decide (is_Some (_devices (hub w) !! device_id))) then
      let rq := api_call (hub w) ("devices/" ++ device_id) "GET" in
      match http (requests w) rq with
      | Ok resp =>
          match check_response resp with
          | Ok body =>
              (Ok tt,
               with_hub (set_devices (λ ds, <[device_id := body]> ds) (hub w))
                 (with_request rq w))
          | Raise e => (Raise e, with_request rq w)
          end
      | Raise e => (Raise e, with_request rq w)
      end
    else (Ok tt, w).
Proof.
  unfold _load_device, mbind at 1, M_bind at 1, get_hub.
  destruct (force_refresh || _); [|done].
  unfold mbind, M_bind. rewrite api_request_run.
  destruct (http _ _) as [resp|e]; [|done].
  by destruct (check_response resp).
Qed.

(** C5.  For a device id that is already in the registry, loading it
    without force sends no request and changes nothing.  Loading it with
    force always sends the request for [devices/{id}], whatever the
    registry holds, and never touches the entry of another id.  When the
    request succeeds the call returns and the registry then holds the body
    of the answer under that id, whatever the entry was: the old entry is
    replaced as a whole, not merged.  When the request fails the call
    raises and the hub is as it was. *)
Theorem load_device_cached_and_forced device_id w :
  is_Some (_devices (hub w) !! device_id) →
  let rq := api_call (hub w) ("devices/" ++ device_id) "GET" in
  let forced := _load_device device_id true w in
  _load_device device_id false w = (Ok tt, w) ∧
  requests (snd forced) = (requests w ++ [rq])%list ∧
  (∀ other, other ≠ device_id →
     _devices (hub (snd forced)) !! other = _devices (hub w) !! other) ∧
  (∀ resp body,
     http (requests w) rq = Ok resp → check_response resp = Ok body →
     fst forced = Ok tt ∧
     _devices (hub (snd forced)) !! device_id = Some body ∧
     _listeners (hub (snd forced)) = _listeners (hub w) ∧
     called (snd forced) = called w ∧
     forced =
       (Ok tt,
        with_hub (set_devices (λ ds, <[device_id := body]> ds) (hub w))
          (with_request rq w))) ∧
  (∀ e,
     http (requests w) rq = Raise e ∨
     (∃ resp, http (requests w) rq = Ok resp ∧ check_response resp = Raise e) →
     forced = (Raise e, with_request rq w) ∧
     hub (snd forced) = hub w).
Proof.
  intros Hcached rq forced. subst forced. rewrite !load_device_run. simpl. fold rq.
  rewrite (bool_decide_eq_true_2 _ Hcached). simpl.
  split; [done|]. split; [|split; [|split]].
  - destruct (http _ _) as [resp|e]; [|done]. by destruct (check_response resp).
  - intros other Hother. destruct (http _ _) as [resp|e]; [|done].
    destruct (check_response resp); [|done]. simpl. by rewrite lookup_insert_ne.
  - intros resp body -> ->. simpl. by rewrite lookup_insert_eq.
  - by intros e [->|(resp & -> & ->)].
Qed.

(** ** Reading attributes *)

(** C6.  [get_device_attribute] returns [None] without raising when the
    device id is unknown and when the device does not have an attribute of
    that name, whereas [device_has_attribute] raises [KeyError] for an
    unknown device id. *)
Theorem attribute_lookup_asymmetry h device_id attr_name :
  (_devices h !! device_id = None →
   get_device_attribute h device_id attr_name = Ok None) ∧
  (device_has_attribute h device_id attr_name = Ok false →
   get_device_attribute h device_id attr_name = Ok None) ∧
  (_devices h !! device_id = None →
   device_has_attribute h device_id attr_name = Raise (KeyError device_id)).
Proof.
  split; [|split].
  - intros Hdev. unfold get_device_attribute. by rewrite Hdev.
  - intros (state & attrs & items & Hdev & Hattrs & Hiter & Hloop)%device_has_attribute_false.
    unfold get_device_attribute. rewrite Hdev.
    destruct (py_truthy state); [|done].
    rewrite Hattrs. simpl. rewrite Hiter. simpl.
    by destruct (has_attr_loop_false "" attr_name PNone items Hloop) as [_ ->].
  - intros Hdev. unfold device_has_attribute. by rewrite Hdev.
Qed.

(** On an entry of the documented shape neither method raises:
    [device_has_attribute] says whether some attribute has the name and
    [get_device_attribute] returns the first attribute that has it. *)
Lemma has_attr_loop_shape attr_name items :
  forallb attribute_shape items = true →
  has_attr_loop attr_name items = Ok (existsb (attr_named attr_name) items).
Proof.
  induction items as [|attr rest IH]; simpl; [done|].
  intros [Hattr Hrest]%andb_true_iff.
  destruct attr; simpl in Hattr; try discriminate.
  apply bool_decide_eq_true in Hattr as [n Hn]. simpl. rewrite Hn. simpl.
  destruct (py_eq_str n attr_name); [done|]. by apply IH.
Qed.

Lemma get_attr_loop_shape attr_name items :
  forallb attribute_shape items = true →
  get_attr_loop attr_name items = Ok (find (attr_named attr_name) items).
Proof.
  induction items as [|attr rest IH]; simpl; [done|].
  intros [Hattr Hrest]%andb_true_iff.
  destruct attr; simpl in Hattr; try discriminate.
  apply bool_decide_eq_true in Hattr as [n Hn]. simpl. rewrite Hn. simpl.
  destruct (py_eq_str n attr_name); [done|]. by apply IH.
Qed.

Lemma device_has_attribute_shape h device_id attr_name state :
  _devices h !! device_id = Some state → device_shape state = true →
  device_has_attribute h device_id attr_name =
    Ok (existsb (attr_named attr_name) (attributes_of state)).
Proof.
  intros Hdev Hshape. unfold device_has_attribute. rewrite Hdev.
  destruct state; simpl in *; try discriminate.
  destruct (dict_get entries "attributes") as [[]|]; try discriminate.
  simpl. by apply has_attr_loop_shape.
Qed.

Lemma get_device_attribute_shape h device_id attr_name state :
  _devices h !! device_id = Some state → device_shape state = true →
  get_device_attribute h device_id attr_name =
    Ok (find (attr_named attr_name) (attributes_of state)).
Proof.
  intros Hdev Hshape. unfold get_device_attribute. rewrite Hdev.
  destruct state as [| | | | | |d]; simpl in *; try discriminate.
  destruct d as [|kv d]; [discriminate|].
  destruct (dict_get (kv :: d) "attributes") as [[]|]; try discriminate.
  simpl. by apply get_attr_loop_shape.
Qed.

(** ** Construction *)

Lemma hostname_char_plain c :
  hostname_char c = true →
  UrlParse.c0_control_or_space c = false ∧
  Forall (λ x, negb (Ascii.eqb c x) = true)
         [":"; "/"; "?"; "#"; ";"; "009"; "010"; "013"]%char.
Proof.
  destruct c as [[] [] [] [] [] [] [] []]; vm_compute; intros Hc;
    try discriminate Hc; (split; [reflexivity|repeat constructor]).
Qed.

Lemma bare_avoids x s :
  x ∈ [":"; "/"; "?"; "#"; ";"; "009"; "010"; "013"]%char →
  Str.forallb hostname_char s = true → avoids x s.
Proof.
  intros Hx. unfold avoids. induction s as [|c s IH]; simpl; [done|].
  intros [Hc Hs]%andb_true_iff. rewrite IH by done.
  apply hostname_char_plain in Hc as [_ Hc].
  rewrite Forall_forall in Hc. by rewrite (Hc x Hx).
Qed.

Lemma avoids_find x s : avoids x s → Str.find x s = None.
Proof.
  unfold avoids. induction s as [|c s IH]; simpl; [done|].
  intros [Hc Hs]%andb_true_iff. apply negb_true_iff in Hc. rewrite Hc.
  by rewrite IH.
Qed.

Lemma avoids_remove_char x s : avoids x s → Str.remove_char x s = s.
Proof.
  unfold avoids. induction s as [|c s IH]; simpl; [done|].
  intros [Hc Hs]%andb_true_iff. apply negb_true_iff in Hc. rewrite Hc.
  by rewrite IH.
Qed.

Lemma avoids_contains_char x s : avoids x s → Str.contains_char x s = false.
Proof.
  unfold avoids. induction s as [|c s IH]; simpl; [done|].
  intros [Hc Hs]%andb_true_iff. apply negb_true_iff in Hc. rewrite Hc.
  by rewrite IH.
Qed.

Lemma urlparse_bare_host s :
  Str.forallb hostname_char s = true →
  UrlParse.urlparse bracketed_netloc_ok nfkc_netloc_ok s =
    Some {| UrlParse.scheme := ""; UrlParse.netloc := ""; UrlParse.path := s;
            UrlParse.params := ""; UrlParse.query := ""; UrlParse.fragment := "" |}.
Proof.
  intros Hs.
  assert (∀ x, x ∈ [":"; "/"; "?"; "#"; ";"; "009"; "010"; "013"]%char → avoids x s)
    as Havoid by (intros; by apply bare_avoids).
  assert (Str.lstrip UrlParse.c0_control_or_space s = s) as Hstrip.
  { destruct s as [|c s]; simpl in *; [done|].
    apply andb_true_iff in Hs as [Hc _].
    apply hostname_char_plain in Hc as [-> _]. done. }
  assert (String.prefix "//" s = false) as Hprefix.
  { destruct s as [|c s]; [done|]. cbn [String.prefix].
    destruct (ascii_dec "/" c) as [<-|_]; [|done].
    cbn [Str.forallb] in Hs. apply andb_true_iff in Hs as [Hc _].
    vm_compute in Hc. discriminate Hc. }
  unfold UrlParse.urlparse, UrlParse.urlsplit, UrlParse.remove_unsafe,
    UrlParse.split_scheme, Str.split1.
  rewrite Hstrip.
  rewrite (avoids_remove_char "009" s) by (apply Havoid; set_solver).
  rewrite (avoids_remove_char "013" s) by (apply Havoid; set_solver).
  rewrite (avoids_remove_char "010" s) by (apply Havoid; set_solver).
  rewrite (avoids_find ":") by (apply Havoid; set_solver).
  rewrite Hprefix. simpl.
  rewrite (avoids_find "#") by (apply Havoid; set_solver). simpl.
  rewrite (avoids_find "?") by (apply Havoid; set_solver). simpl.
  rewrite (avoids_contains_char ";") by (apply Havoid; set_solver).
  done.
Qed.

(** C7.  Constructing a hub from a bare host name or address, with a
    non-empty app id and token, resolves the scheme to [http], keeps the
    host as given and sets the API base URL to
    [http://{host}/apps/api/{app_id}]. *)
Theorem init_bare_host name app access_token port address :
  bare_host name → app ≠ "" → access_token ≠ "" →
  ∃ h, __init__ name app access_token port address = Ok h ∧
       scheme h = "http" ∧
       host h = name ∧
       api_url h = "http://" ++ name ++ "/apps/api/" ++ app.
Proof.
  intros [Hne Hbare] Happ Htoken. unfold __init__.
  apply String.eqb_neq in Hne, Happ, Htoken. rewrite Hne, Happ, Htoken. simpl.
  rewrite (urlparse_bare_host _ Hbare). simpl.
  eexists. split; [reflexivity|]. by simpl.
Qed.

(** ** Shutdown and commands *)

(** Once [self._server] is assigned, [stop] stops the server, clears the
    listener registrations and marks the hub as not started. *)
Lemma stop_with_server w srv :
  _server (hub w) = Some srv →
  ∃ w', stop w = (Ok tt, w') ∧
        _listeners (hub w') = ∅ ∧
        _started (hub w') = false ∧
        _server (hub w') = Some (server_stop srv) ∧
        _devices (hub w') = _devices (hub w).
Proof.
  intros Hsrv. unfold stop, mbind, M_bind, get_hub, modify_hub. rewrite Hsrv.
  by eexists.
Qed.

(** Without the attribute [stop] raises before it clears anything. *)
Lemma stop_without_server w :
  _server (hub w) = None → stop w = (Raise (AttributeError "_server"), w).
Proof.
  intros Hsrv. unfold stop, mbind, M_bind, get_hub, raise. by rewrite Hsrv.
Qed.

(** [__init__] never assigns [self._server]. *)
Lemma init_leaves_server_unset name app access_token port address h :
  __init__ name app access_token port address = Ok h → _server h = None.
Proof.
  unfold __init__. destruct (_ || _); [discriminate|].
  destruct (UrlParse.urlparse _ _ _); [|discriminate].
  by intros [= <-].
Qed.

Lemma append_assoc (a b c : string) : (a ++ b) ++ c = a ++ b ++ c.
Proof.
  induction a as [|x a IH]; [done|].
  change (String x ((a ++ b) ++ c) = String x (a ++ b ++ c)). by rewrite IH.
Qed.

(** [send_command] appends the argument exactly when it is truthy, and its
    result is that of the request. *)
Lemma command_path_truthy device_id command arg :
  arg_truthy (Some arg) = true →
  command_path device_id command (Some arg) =
    "devices/" ++ device_id ++ "/" ++ command ++ "/" ++ arg_format arg.
Proof.
  intros Harg. unfold command_path. rewrite Harg.
  by rewrite !append_assoc.
Qed.

Lemma command_path_falsy device_id command arg :
  arg_truthy arg = false →
  command_path device_id command arg = "devices/" ++ device_id ++ "/" ++ command.
Proof. intros Harg. unfold command_path. destruct arg; [by rewrite Harg|done]. Qed.


(** ** Successive updates *)

Lemma dict_set_set d k v v' : dict_set (dict_set d k v) k v' = dict_set d k v'.
Proof.
  induction d as [|[k0 v0] d IH]; simpl.
  - by rewrite String.eqb_refl.
  - destruct (String.eqb k0 k) eqn:E; simpl; rewrite E; [done|]. by rewrite IH.
Qed.

Lemma update_attr_loop_ok device_id attr_name value attrs attrs' :
  update_attr_loop device_id attr_name value attrs = Ok attrs' →
  ∃ pre a post,
    first_named attr_name attrs pre a post ∧
    attrs' = (pre ++ PDict (dict_set a "currentValue" value) :: post)%list.
Proof.
  revert attrs'. induction attrs as [|attr rest IH]; intros attrs'; simpl; [discriminate|].
  destruct (py_getitem attr "name") as [n|e] eqn:Hn; simpl; [|discriminate].
  destruct (py_eq_str n attr_name) eqn:Heq.
  - apply py_getitem_ok in Hn as (a & -> & Ha). simpl. intros [= <-].
    exists [], a, rest. split; [|done]. split; [done|]. split; [constructor|eauto].
  - destruct (update_attr_loop device_id attr_name value rest) as [rest'|e] eqn:Hrest;
      simpl; [|discriminate].
    intros [= <-]. destruct (IH _ eq_refl) as (pre & a & post & (-> & Hpre & Ha) & ->).
    exists (attr :: pre), a, post. split; [|done].
    split; [done|]. split; [|done]. constructor; eauto.
Qed.

Lemma update_state_ok device_id attr_name value state state' :
  update_state device_id attr_name value state = Ok state' →
  ∃ d pre a post,
    state = PDict d ∧
    dict_get d "attributes" = Some (PList (pre ++ PDict a :: post)) ∧
    first_named attr_name (pre ++ PDict a :: post) pre a post ∧
    state' = PDict (dict_set d "attributes"
                      (PList (pre ++ PDict (dict_set a "currentValue" value) :: post))).
Proof.
  unfold update_state.
  destruct (py_getitem state "attributes") as [attrs|e] eqn:Hattrs; simpl; [|discriminate].
  apply py_getitem_ok in Hattrs as (d & -> & Hd).
  destruct (py_iter attrs) as [items|e] eqn:Hiter; simpl; [|discriminate].
  destruct (update_attr_loop device_id attr_name value items) as [items'|e] eqn:Hloop;
    simpl; [|discriminate].
  apply update_attr_loop_ok in Hloop as (pre & a & post & Hfirst & ->).
  pose proof Hfirst as (-> & _).
  apply py_iter_dict_item in Hiter as ->.
  intros [= <-]. exists d, pre, a, post. done.
Qed.

(** X1.  Of two updates of the same attribute of the same device the later
    one wins: applying the second after the first gives the result and the
    hub that the second alone gives.  Delivering an event twice therefore
    leaves the cache as delivering it once. *)
Theorem update_device_attr_last_wins device_id attr_name v1 v2 w :
  _update_device_attr device_id attr_name v2
    (snd (_update_device_attr device_id attr_name v1 w)) =
  _update_device_attr device_id attr_name v2 w.
Proof.
  rewrite (update_device_attr_run _ _ v1 w).
  destruct (_devices (hub w) !! device_id) as [state|] eqn:Hdev; [|done].
  destruct (update_state device_id attr_name v1 state) as [state1|e] eqn:H1; [|done].
  apply update_state_ok in H1 as (d & pre & a & post & -> & Hd & Hfirst & ->).
  rewrite !update_device_attr_run. simpl. rewrite lookup_insert_eq, Hdev.
  rewrite (update_state_first_named _ _ v2 _ _ _ _ Hd Hfirst).
  erewrite update_state_first_named;
    [|apply dict_get_set_eq|by eapply first_named_updated].
  rewrite !dict_set_set. unfold with_hub, set_devices. simpl.
  by rewrite insert_insert_eq.
Qed.

(** X2.  Updates of different devices do not interfere: each gives the
    result it gives on its own, and the two orders leave the same world. *)
Theorem update_device_attr_commute id1 name1 v1 id2 name2 v2 w :
  id1 ≠ id2 →
  fst (_update_device_attr id2 name2 v2 (snd (_update_device_attr id1 name1 v1 w))) =
    fst (_update_device_attr id2 name2 v2 w) ∧
  snd (_update_device_attr id2 name2 v2 (snd (_update_device_attr id1 name1 v1 w))) =
    snd (_update_device_attr id1 name1 v1 (snd (_update_device_attr id2 name2 v2 w))).
Proof.
  intros Hne.
  rewrite (update_device_attr_run id1 name1 v1 w), (update_device_attr_run id2 name2 v2 w).
  destruct (_devices (hub w) !! id1) as [s1|] eqn:H1;
    destruct (_devices (hub w) !! id2) as [s2|] eqn:H2; simpl;
    try destruct (update_state id1 name1 v1 s1) as [s1'|e1] eqn:U1;
    try destruct (update_state id2 name2 v2 s2) as [s2'|e2] eqn:U2; simpl;
    rewrite !update_device_attr_run; simpl;
    rewrite ?lookup_insert_ne by done; rewrite ?H1, ?H2, ?U1, ?U2; simpl; try done.
  split; [done|]. unfold with_hub, set_devices. simpl.
  by rewrite insert_insert_ne.
Qed.

Lemma has_attr_loop_replace attr_name pre x x' post :
  py_getitem x' "name" = py_getitem x "name" →
  has_attr_loop attr_name (pre ++ x' :: post) = has_attr_loop attr_name (pre ++ x :: post).
Proof.
  intros Hname. induction pre as [|y pre IH]; simpl.
  - by rewrite Hname.
  - destruct (py_getitem y "name") as [n|e]; simpl; [|done].
    by destruct (py_eq_str n attr_name).
Qed.

(** X3.  An update never changes which attributes a device has: after
    [_update_device_attr], whatever it did, [device_has_attribute] answers
    every question as before. *)
Theorem update_device_attr_keeps_attributes device_id attr_name value w other other_name :
  device_has_attribute (hub (snd (_update_device_attr device_id attr_name value w)))
    other other_name =
  device_has_attribute (hub w) other other_name.
Proof.
  rewrite update_device_attr_run.
  destruct (_devices (hub w) !! device_id) as [state|] eqn:Hdev; [|done].
  destruct (update_state device_id attr_name value state) as [state'|e] eqn:Hupd; [|done].
  apply update_state_ok in Hupd as (d & pre & a & post & -> & Hd & Hfirst & ->).
  unfold device_has_attribute. simpl.
  destruct (decide (other = device_id)) as [->|Hne].
  - rewrite lookup_insert_eq, Hdev. simpl. rewrite dict_get_set_eq, Hd. simpl.
    apply has_attr_loop_replace. simpl. by rewrite dict_get_set_ne.
  - by rewrite lookup_insert_ne.
Qed.

(** ** Listeners and events *)

Lemma process_event_dispatch event device_id attr_name value w :
  is_event event device_id attr_name value →
  process_event event w =
    match _update_device_attr device_id attr_name value w with
    | (Ok _, w') =>
        (outcome (registered (hub w) device_id),
         with_called (invoked (registered (hub w) device_id)) w')
    | (Raise e, w') => (Raise e, w')
    end.
Proof.
  intros Hev. rewrite (process_event_run _ _ _ _ _ Hev), update_device_attr_run.
  destruct (_devices (hub w) !! device_id) as [state|]; [|by rewrite dispatch_run].
  destruct (update_state device_id attr_name value state); [|done].
  by rewrite dispatch_run.
Qed.

Lemma update_device_attr_listeners device_id attr_name value f w :
  _update_device_attr device_id attr_name value (with_hub (set_listeners f (hub w)) w) =
    match _update_device_attr device_id attr_name value w with
    | (r, w') => (r, with_hub (set_listeners f (hub w')) w')
    end.
Proof.
  rewrite !update_device_attr_run. simpl.
  destruct (_devices (hub w) !! device_id) as [state|]; [|done].
  by destruct (update_state device_id attr_name value state).
Qed.

Lemma process_event_with_listeners event device_id attr_name value f w :
  is_event event device_id attr_name value →
  let listeners := registered (set_listeners f (hub w)) device_id in
  process_event event (with_hub (set_listeners f (hub w)) w) =
    match _update_device_attr device_id attr_name value w with
    | (Ok _, w') =>
        (outcome listeners,
         with_called (invoked listeners) (with_hub (set_listeners f (hub w')) w'))
    | (Raise e, w') => (Raise e, with_hub (set_listeners f (hub w')) w')
    end.
Proof.
  intros Hev listeners. rewrite (process_event_dispatch _ _ _ _ _ Hev).
  rewrite update_device_attr_listeners.
  by destruct (_update_device_attr device_id attr_name value w) as [[[]|e] w'].
Qed.

Lemma update_device_attr_called device_id attr_name value w :
  called (snd (_update_device_attr device_id attr_name value w)) = called w.
Proof.
  rewrite update_device_attr_run.
  destruct (_devices (hub w) !! device_id) as [state|]; [|done].
  by destruct (update_state device_id attr_name value state).
Qed.

(** X4.  A listener added for a device id is called on the next event for
    that id whose update does not raise, after the listeners registered
    before it; a callback that was already registered is called once more. *)
Theorem added_listener_is_called event device_id attr_name value listener w :
  is_event event device_id attr_name value →
  fst (_update_device_attr device_id attr_name value w) = Ok tt →
  called (snd (process_event event
                 (with_hub (add_device_listener device_id listener (hub w)) w))) =
    (called w ++ invoked (registered (hub w) device_id ++ [listener]))%list.
Proof.
  intros Hev Hok. rewrite <- registered_add. unfold add_device_listener.
  rewrite (process_event_with_listeners _ _ _ _ _ _ Hev).
  pose proof (update_device_attr_called device_id attr_name value w) as Hcalled.
  destruct (_update_device_attr device_id attr_name value w) as [[[]|e] w'];
    [|discriminate].
  simpl in *. by rewrite Hcalled.
Qed.

(** X5.  After [remove_device_listeners] an event for that device id calls
    no listener, whatever its update does; the listeners of the other
    device ids stay registered. *)
Theorem removed_listeners_are_not_called event device_id attr_name value w :
  is_event event device_id attr_name value →
  let h := remove_device_listeners device_id (hub w) in
  called (snd (process_event event (with_hub h w))) = called w ∧
  ∀ other, other ≠ device_id → registered h other = registered (hub w) other.
Proof.
  intros Hev h. split.
  - pose proof (registered_remove device_id (hub w)) as Hnone.
    subst h. unfold remove_device_listeners in *.
    rewrite (process_event_with_listeners _ _ _ _ _ _ Hev), Hnone.
    pose proof (update_device_attr_called device_id attr_name value w) as Hcalled.
    destruct (_update_device_attr device_id attr_name value w) as [[[]|e] w'];
      simpl in *; by rewrite ?app_nil_r.
  - intros other Hne. unfold registered, h, remove_device_listeners. simpl.
    by rewrite lookup_insert_ne.
Qed.

(** X6.  Once the server attribute is assigned, [stop] returns, keeps the
    device cache and forgets every listener: an event that arrives later
    still updates the cache as before, and calls no listener. *)
Theorem stop_silences_listeners srv event device_id attr_name value w :
  _server (hub w) = Some srv →
  is_event event device_id attr_name value →
  let w' := snd (stop w) in
  fst (stop w) = Ok tt ∧
  _devices (hub w') = _devices (hub w) ∧
  called (snd (process_event event w')) = called w ∧
  _devices (hub (snd (process_event event w'))) =
    _devices (hub (snd (_update_device_attr device_id attr_name value w))).
Proof.
  intros Hsrv Hev w'. subst w'.
  unfold stop, mbind, M_bind, get_hub, modify_hub. rewrite Hsrv. simpl.
  split; [done|]. split; [done|].
  rewrite (process_event_dispatch _ _ _ _ _ Hev), !update_device_attr_run. simpl.
  destruct (_devices (hub w) !! device_id) as [state|]; simpl;
    [|by rewrite app_nil_r].
  destruct (update_state device_id attr_name value state); simpl; [|done].
  by rewrite app_nil_r.
Qed.

(** ** Loading, once more *)

Lemma load_device_ok device_id force_refresh w :
  fst (_load_device device_id force_refresh w) = Ok tt →
  is_Some (_devices (hub (snd (_load_device device_id force_refresh w))) !! device_id).
Proof.
  rewrite load_device_run.
  destruct (force_refresh || _) eqn:Hgo.
  - simpl. destruct (http _ _) as [resp|e]; [|discriminate].
    destruct (check_response resp); [|discriminate].
    intros _. simpl. by rewrite lookup_insert_eq.
  - intros _. simpl. apply orb_false_iff in Hgo as [_ Hin].
    by apply negb_false_iff, bool_decide_eq_true in Hin.
Qed.

(** X7.  The first load of a device that is not cached fetches it and
    stores the body; a second load without force then sends nothing and
    changes nothing, so the two loads send exactly one request. *)
Theorem load_device_fetches_once device_id w resp body :
  _devices (hub w) !! device_id = None →
  http (requests w) (api_call (hub w) ("devices/" ++ device_id) "GET") = Ok resp →
  check_response resp = Ok body →
  let w' := snd (_load_device device_id false w) in
  fst (_load_device device_id false w) = Ok tt ∧
  _devices (hub w') !! device_id = Some body ∧
  requests w' = (requests w ++ [api_call (hub w) ("devices/" ++ device_id) "GET"])%list ∧
  _load_device device_id false w' = (Ok tt, w').
Proof.
  intros Hnew Hresp Hbody w'. subst w'. rewrite (load_device_run _ _ w).
  rewrite Hnew. simpl. rewrite Hresp, Hbody. simpl.
  split; [done|]. split; [by rewrite lookup_insert_eq|]. split; [done|].
  rewrite load_device_run. simpl. by rewrite lookup_insert_eq.
Qed.

(** X8.  A load that raises, for whatever reason (the transport, a 401,
    another status from 400 on, an error body), leaves the hub as it was:
    nothing is stored and the cached entry, if any, is kept. *)
Theorem load_device_failure_keeps_hub device_id force_refresh w e :
  fst (_load_device device_id force_refresh w) = Raise e →
  hub (snd (_load_device device_id force_refresh w)) = hub w.
Proof.
  rewrite load_device_run. destruct (force_refresh || _); [|discriminate].
  simpl. destruct (http _ _) as [resp|e']; [|done].
  by destruct (check_response resp).
Qed.

Lemma load_devices_run force_refresh w :
  _load_devices force_refresh w =
    if force_refresh || (size (_devices (hub w)) =? 0)%nat then
      let rq := api_call (hub w) "devices" "GET" in
      match http (requests w) rq with
      | Ok resp =>
          match check_response resp with
          | Ok body =>
              match py_iter body with
              | Ok items => load_each items force_refresh (with_request rq w)
              | Raise e => (Raise e, with_request rq w)
              end
          | Raise e => (Raise e, with_request rq w)
          end
      | Raise e => (Raise e, with_request rq w)
      end
    else (Ok tt, w).
Proof.
  unfold _load_devices, mbind at 1, M_bind at 1, get_hub.
  destruct (force_refresh || _); [|done].
  unfold mbind at 1, M_bind at 1. rewrite api_request_run. simpl.
  destruct (http _ _) as [resp|e]; [|done].
  destruct (check_response resp) as [body|e]; [|done].
  unfold mbind, M_bind, lift. by destruct (py_iter body).
Qed.

Lemma load_each_cons dev rest force_refresh w :
  load_each (dev :: rest) force_refresh w =
    match py_getitem dev "id" with
    | Ok (PStr device_id) =>
        match _load_device device_id force_refresh w with
        | (Ok _, w') => load_each rest force_refresh w'
        | (Raise e, w') => (Raise e, w')
        end
    | Ok _ => (Raise IllTyped, w)
    | Raise e => (Raise e, w)
    end.
Proof.
  cbn [load_each]. unfold mbind at 1 2, M_bind at 1 2, lift.
  destruct (py_getitem dev "id") as [v|e]; [|done].
  by destruct v.
Qed.

(** X9.  Without force, [_load_devices] does nothing as soon as one device
    is cached, whichever it is: no request is sent and the world is
    unchanged, so the device list is listed again only when forced. *)
Theorem load_devices_skips_when_cached device_id w :
  is_Some (_devices (hub w) !! device_id) →
  _load_devices false w = (Ok tt, w).
Proof.
  intros [state Hstate]. rewrite load_devices_run. simpl.
  destruct (Nat.eqb_spec (size (_devices (hub w))) 0) as [Hsize|_]; [|done].
  apply map_size_empty_iff in Hsize. by rewrite Hsize, lookup_empty in Hstate.
Qed.

(** ** What every call keeps *)

Lemma prefix_append (a b : string) : String.prefix a (a ++ b) = true.
Proof.
  induction a as [|c a IH]; [by destruct b|].
  change (String.prefix (String c a) (String c (a ++ b)) = true).
  cbn [String.prefix]. by destruct (ascii_dec c c).
Qed.

Lemma api_call_authorized h h' path :
  same_config h h' → authorized h (api_call h' path "GET").
Proof.
  intros (Hurl & _ & _ & _ & Htoken & _). unfold authorized, api_call. simpl.
  rewrite Hurl, Htoken. split; [done|]. split; [|done].
  rewrite <- append_assoc. apply prefix_append.
Qed.

Lemma same_config_refl h : same_config h h.
Proof. by repeat split. Qed.

Lemma same_config_trans h1 h2 h3 :
  same_config h1 h2 → same_config h2 h3 → same_config h1 h3.
Proof.
  unfold same_config. intros (?&?&?&?&?&?&?) (?&?&?&?&?&?&?).
  repeat split; congruence.
Qed.

Lemma continues_refl w : continues w w.
Proof.
  split; [apply same_config_refl|]. split; [done|].
  exists []. by rewrite app_nil_r.
Qed.

Lemma continues_trans w1 w2 w3 : continues w1 w2 → continues w2 w3 → continues w1 w3.
Proof.
  intros (Hc1 & Hd1 & s1 & Hr1 & Ha1) (Hc2 & Hd2 & s2 & Hr2 & Ha2).
  split; [by eapply same_config_trans|]. split; [auto|].
  exists (s1 ++ s2)%list. split; [by rewrite Hr2, Hr1, app_assoc|].
  apply Forall_app. split; [done|].
  eapply Forall_impl; [exact Ha2|]. intros rq (Hm & Hp & Hq).
  destruct Hc1 as (Hurl & _ & _ & _ & Htoken & _).
  unfold authorized. by rewrite <- Hurl, <- Htoken.
Qed.

Lemma keeps_ret {A} (a : A) : keeps (mret a).
Proof. intros w. apply continues_refl. Qed.

Lemma keeps_raise {A} e : keeps (raise e : M A).
Proof. intros w. apply continues_refl. Qed.

Lemma keeps_lift {A} (r : result A) : keeps (lift r).
Proof. intros w. apply continues_refl. Qed.

Lemma keeps_get_hub : keeps get_hub.
Proof. intros w. apply continues_refl. Qed.

Lemma keeps_bind {A B} (m : M A) (f : A → M B) :
  keeps m → (∀ a, keeps (f a)) → keeps (m ≫= f).
Proof.
  intros Hm Hf w. unfold mbind, M_bind. pose proof (Hm w) as Hw.
  destruct (m w) as [[a|e] w']; [|done].
  eapply continues_trans; [exact Hw|apply Hf].
Qed.

Lemma keeps_modify_hub f :
  (∀ h, same_config h (f h)) →
  (∀ h device_id, is_Some (_devices h !! device_id) →
                  is_Some (_devices (f h) !! device_id)) →
  keeps (modify_hub f).
Proof.
  intros Hc Hd w. split; [apply Hc|]. split; [apply Hd|].
  exists []. by rewrite app_nil_r.
Qed.

Lemma keeps_store device_id body :
  keeps (modify_hub (set_devices (λ ds, <[device_id := body]> ds))).
Proof.
  apply keeps_modify_hub; [by intros h; repeat split|].
  intros h other Hother. simpl.
  destruct (decide (device_id = other)) as [->|Hne];
    [by rewrite lookup_insert_eq|by rewrite lookup_insert_ne].
Qed.

Lemma keeps_call l : keeps (call l).
Proof.
  intros w. split; [apply same_config_refl|]. split; [done|].
  exists []. by rewrite app_nil_r.
Qed.

Lemma keeps_dispatch listeners : keeps (dispatch listeners).
Proof.
  induction listeners as [|l rest IH]; [apply keeps_ret|].
  apply keeps_bind; [apply keeps_call|done].
Qed.

Lemma keeps_api_request path : keeps (_api_request path "GET").
Proof.
  intros w. rewrite api_request_run. split; [apply same_config_refl|]. split; [done|].
  exists [api_call (hub w) path "GET"]. split; [done|].
  constructor; [|done]. apply api_call_authorized, same_config_refl.
Qed.

Lemma keeps_load_device device_id force_refresh : keeps (_load_device device_id force_refresh).
Proof.
  apply keeps_bind; [apply keeps_get_hub|]. intros h.
  destruct (force_refresh || _); [|apply keeps_ret].
  apply keeps_bind; [apply keeps_api_request|]. intros body. apply keeps_store.
Qed.

Lemma keeps_load_each devices force_refresh : keeps (load_each devices force_refresh).
Proof.
  induction devices as [|dev rest IH]; [apply keeps_ret|].
  apply keeps_bind; [apply keeps_lift|]. intros v.
  apply keeps_bind; [apply keeps_lift|]. intros device_id.
  apply keeps_bind; [apply keeps_load_device|done].
Qed.

Lemma keeps_load_devices force_refresh : keeps (_load_devices force_refresh).
Proof.
  apply keeps_bind; [apply keeps_get_hub|]. intros h.
  destruct (force_refresh || _); [|apply keeps_ret].
  apply keeps_bind; [apply keeps_api_request|]. intros body.
  apply keeps_bind; [apply keeps_lift|]. intros items. apply keeps_load_each.
Qed.

Lemma keeps_update_device_attr device_id attr_name value :
  keeps (_update_device_attr device_id attr_name value).
Proof.
  apply keeps_bind; [apply keeps_get_hub|]. intros h.
  destruct (_devices h !! device_id); [|apply keeps_ret].
  apply keeps_bind; [apply keeps_lift|]. intros state'. apply keeps_store.
Qed.

Lemma keeps_process_event event : keeps (process_event event).
Proof.
  unfold process_event.
  repeat (apply keeps_bind; [apply keeps_lift|]; intros ?).
  apply keeps_bind; [apply keeps_update_device_attr|]. intros _.
  apply keeps_bind; [apply keeps_get_hub|]. intros h.
  destruct (_listeners h !! _); [apply keeps_dispatch|apply keeps_ret].
Qed.

Lemma keeps_stop : keeps stop.
Proof.
  apply keeps_bind; [apply keeps_get_hub|]. intros h.
  destruct (_server h); [|apply keeps_raise].
  repeat (apply keeps_bind; [by apply keeps_modify_hub|]; intros _).
  by apply keeps_modify_hub.
Qed.

Lemma keeps_run op : keeps (run op).
Proof.
  destruct op; simpl.
  - apply keeps_process_event.
  - apply keeps_load_device.
  - apply keeps_load_devices.
  - apply keeps_load_device.
  - apply keeps_bind; [apply keeps_api_request|]. intros _. apply keeps_ret.
  - apply keeps_bind; [apply keeps_api_request|]. intros _. apply keeps_ret.
  - apply keeps_bind; [apply keeps_api_request|]. intros _. apply keeps_ret.
  - apply keeps_stop.
Qed.

Lemma run_all_continues ops w : continues w (run_all ops w).
Proof.
  revert w. induction ops as [|op ops IH]; intros w; [apply continues_refl|].
  simpl. eapply continues_trans; [apply keeps_run|apply IH].
Qed.

(** X10.  The registry never loses a device: after any sequence of events,
    loads, refreshes, commands and a stop, whatever any of them raised,
    every device id that was cached is still cached. *)
Theorem registry_never_forgets ops w device_id :
  is_Some (_devices (hub w) !! device_id) →
  is_Some (_devices (hub (run_all ops w)) !! device_id).
Proof. intros Hin. by apply (run_all_continues ops w). Qed.

(** X11.  Every request any sequence of calls sends is a GET below the API
    base URL the hub was constructed with and carries the access token as
    its only parameter; earlier requests stay in the log, and the
    configuration of the hub is never changed. *)
Theorem requests_stay_authorized ops w :
  same_config (hub w) (hub (run_all ops w)) ∧
  ∃ sent, requests (run_all ops w) = (requests w ++ sent)%list ∧
          Forall (authorized (hub w)) sent.
Proof. destruct (run_all_continues ops w) as (Hc & _ & Hs). done. Qed.

(** ** Loading the device list *)

(** The ids of a device list as the Maker API sends it: every element is a
    [dict] whose [id] is a [str], as [_load_device] is annotated to take. *)
Lemma load_each_ok devices ids force_refresh w :
  Forall2 (λ dev device_id, py_getitem dev "id" = Ok (PStr device_id)) devices ids →
  fst (load_each devices force_refresh w) = Ok tt →
  Forall (λ device_id,
            is_Some (_devices (hub (snd (load_each devices force_refresh w))) !! device_id))
         ids.
Proof.
  intros Hids. revert w.
  induction Hids as [|dev device_id rest ids Hid _ IH]; intros w; [constructor|].
  rewrite load_each_cons, Hid.
  pose proof (load_device_ok device_id force_refresh w) as Hhead.
  destruct (_load_device device_id force_refresh w) as [[[]|e] w']; [|discriminate].
  intros Hok. constructor; [|by apply IH].
  by apply (keeps_load_each rest force_refresh w'), Hhead.
Qed.

(** X12.  When the hub answers the list request with devices whose ids are
    strings and [_load_devices] (forced, or on an empty registry) returns,
    every listed id is cached. *)
Theorem load_devices_caches_listed force_refresh w resp body devices ids :
  force_refresh = true ∨ size (_devices (hub w)) = 0%nat →
  http (requests w) (api_call (hub w) "devices" "GET") = Ok resp →
  check_response resp = Ok body →
  py_iter body = Ok devices →
  Forall2 (λ dev device_id, py_getitem dev "id" = Ok (PStr device_id)) devices ids →
  fst (_load_devices force_refresh w) = Ok tt →
  Forall (λ device_id,
            is_Some (_devices (hub (snd (_load_devices force_refresh w))) !! device_id))
         ids.
Proof.
  intros Hgo Hresp Hbody Hiter Hids. rewrite load_devices_run.
  assert (force_refresh || (size (_devices (hub w)) =? 0)%nat = true) as ->.
  { destruct Hgo as [->| ->]; [done|]. apply orb_true_r. }
  simpl. rewrite Hresp, Hbody, Hiter. by apply load_each_ok.
Qed.



(** ** Reading attributes, once more *)

Lemma py_eq_str_true v s : py_eq_str v s = true → v = PStr s.
Proof. destruct v; simpl; try discriminate. by intros ->%String.eqb_eq. Qed.

Lemma get_attr_loop_some attr_name attrs attr :
  get_attr_loop attr_name attrs = Ok (Some attr) →
  has_attr_loop attr_name attrs = Ok true ∧
  py_getitem attr "name" = Ok (PStr attr_name).
Proof.
  induction attrs as [|x rest IH]; simpl; [discriminate|].
  destruct (py_getitem x "name") as [n|e] eqn:Hn; simpl; [|discriminate].
  destruct (py_eq_str n attr_name) eqn:Heq; [|done].
  intros [= <-]. by apply py_eq_str_true in Heq as ->.
Qed.

(** X14.  The two ways of asking for an attribute agree:
    [get_device_attribute] returns an attribute exactly when
    [device_has_attribute] returns [True], and what it returns is a [dict]
    whose [name] is the name asked for. *)
Theorem get_attribute_agrees_with_has h device_id attr_name :
  (device_has_attribute h device_id attr_name = Ok true ↔
   ∃ attr, get_device_attribute h device_id attr_name = Ok (Some attr)) ∧
  ∀ attr, get_device_attribute h device_id attr_name = Ok (Some attr) →
          py_getitem attr "name" = Ok (PStr attr_name).
Proof.
  split; [split|].
  - intros (d & pre & a & post & Hdev & Hd & Hfirst)%device_has_attribute_true.
    exists (PDict a). unfold get_device_attribute. rewrite Hdev. simpl.
    destruct d as [|kv d]; [discriminate|]. rewrite Hd. simpl.
    by eapply get_attr_loop_first_named.
  - intros [attr Hget]. revert Hget. unfold get_device_attribute, device_has_attribute.
    destruct (_devices h !! device_id) as [state|]; [|discriminate].
    destruct (py_truthy state); [|discriminate].
    destruct (py_getitem state "attributes") as [attrs|e]; simpl; [|discriminate].
    destruct (py_iter attrs) as [items|e]; simpl; [|discriminate].
    by intros [? _]%get_attr_loop_some.
  - intros attr. unfold get_device_attribute.
    destruct (_devices h !! device_id) as [state|]; [|discriminate].
    destruct (py_truthy state); [|discriminate].
    destruct (py_getitem state "attributes") as [attrs|e]; simpl; [|discriminate].
    destruct (py_iter attrs) as [items|e]; simpl; [|discriminate].
    by intros [_ ?]%get_attr_loop_some.
Qed.

(** ** Construction, once more *)

(** X15.  [__init__] raises [InvalidConfig] exactly when the host, the app
    id or the access token is empty. *)
Theorem init_invalid_config name app access_token port address :
  __init__ name app access_token port address = Raise InvalidConfig ↔
  name = "" ∨ app = "" ∨ access_token = "".
Proof.
  unfold __init__. split.
  - destruct (String.eqb_spec name ""); [auto|].
    destruct (String.eqb_spec app ""); [auto|].
    destruct (String.eqb_spec access_token ""); [auto|]. simpl.
    by destruct (UrlParse.urlparse _ _ name).
  - intros [->|[->| ->]]; [done| |].
    + by destruct (String.eqb name "").
    + by destruct (String.eqb name ""), (String.eqb app "").
Qed.

Lemma forallb_append p (a b : string) :
  Str.forallb p (a ++ b) = Str.forallb p a && Str.forallb p b.
Proof.
  induction a as [|c a IH]; [done|].
  change (p c && Str.forallb p (a ++ b) = p c && Str.forallb p a && Str.forallb p b).
  by rewrite IH, andb_assoc.
Qed.

Lemma forallb_impl (p q : ascii → bool) s :
  (∀ c, p c = true → q c = true) → Str.forallb p s = true → Str.forallb q s = true.
Proof.
  intros Hpq. induction s as [|c s IH]; simpl; [done|].
  intros [Hc Hs]%andb_true_iff. by rewrite (Hpq c Hc), IH.
Qed.

Lemma find_append_avoids x (a b : string) :
  avoids x a → Str.find x (a ++ String x b) = Some (String.length a).
Proof.
  unfold avoids. induction a as [|c a IH]; simpl.
  - intros _. by rewrite Ascii.eqb_refl.
  - intros [Hc Ha]%andb_true_iff. apply negb_true_iff in Hc.
    change (Str.find x (String c (a ++ String x b))) with
      (if Ascii.eqb c x then Some 0%nat else S <$> Str.find x (a ++ String x b)).
    by rewrite Hc, IH.
Qed.

Lemma take_append (a b : string) : Str.take (String.length a) (a ++ b) = a.
Proof.
  induction a as [|c a IH]; [by destruct b|].
  change (String c (Str.take (String.length a) (a ++ b)) = String c a). by rewrite IH.
Qed.

Lemma drop_append (a b : string) : Str.drop (String.length a) (a ++ b) = b.
Proof. induction a as [|c a IH]; [by destruct b|]. exact IH. Qed.

Lemma take_all (a : string) : Str.take (String.length a) a = a.
Proof. induction a as [|c a IH]; simpl; [done|]. by rewrite IH. Qed.

Lemma drop_all (a : string) : Str.drop (String.length a) a = "".
Proof. induction a as [|c a IH]; simpl; done. Qed.

Lemma alpha_char_plain c :
  Str.is_ascii_alpha c = true →
  UrlParse.scheme_char c = true ∧
  UrlParse.c0_control_or_space c = false ∧
  Forall (λ x, negb (Ascii.eqb c x) = true) [":"; "009"; "010"; "013"]%char.
Proof.
  destruct c as [[] [] [] [] [] [] [] []]; vm_compute; intros Hc;
    try discriminate Hc; (split; [reflexivity|split; [reflexivity|repeat constructor]]).
Qed.

Lemma netloc_char_plain c :
  netloc_char c = true →
  Str.is_ascii c = true ∧
  Forall (λ x, negb (Ascii.eqb c x) = true)
         ["/"; "?"; "#"; "["; "]"; "009"; "010"; "013"]%char.
Proof.
  destruct c as [[] [] [] [] [] [] [] []]; vm_compute; intros Hc;
    try discriminate Hc; (split; [reflexivity|repeat constructor]).
Qed.

(** Membership in a list that is written out, possibly from membership in a
    shorter one. *)
Ltac in_list :=
  repeat match goal with
         | H : _ ∈ _ :: _ |- _ => apply elem_of_cons in H as [->|H]
         | H : _ ∈ [] |- _ => by apply elem_of_nil in H
         end;
  solve [repeat first [apply list_elem_of_here | apply list_elem_of_further]].

Lemma forallb_avoids (p : ascii → bool) (l : list ascii) x s :
  (∀ c, p c = true → Forall (λ x, negb (Ascii.eqb c x) = true) l) →
  x ∈ l → Str.forallb p s = true → avoids x s.
Proof.
  intros Hp Hx. apply forallb_impl. intros c Hc.
  specialize (Hp c Hc). rewrite Forall_forall in Hp. by apply Hp.
Qed.

Lemma app_cons c (a b : string) : String c a ++ b = String c (a ++ b).
Proof. reflexivity. Qed.

Lemma drop_append_cons (a b : string) x :
  Str.drop (S (String.length a)) (a ++ String x b) = b.
Proof. induction a as [|c a IH]; [done|]. exact IH. Qed.

Lemma split_scheme_proto c0 proto rest :
  Str.is_ascii_alpha c0 = true → Str.forallb Str.is_ascii_alpha proto = true →
  UrlParse.split_scheme (String c0 (proto ++ String ":" rest)) =
    (Str.lower (String c0 proto), rest).
Proof.
  intros Hc0 Hproto.
  assert (avoids ":" proto) as Hcolon.
  { eapply (forallb_avoids Str.is_ascii_alpha); [|by left|exact Hproto].
    intros c Hc. by apply alpha_char_plain in Hc as (_ & _ & ?). }
  unfold UrlParse.split_scheme. cbn [Str.find].
  assert (Ascii.eqb c0 ":" = false) as ->.
  { apply alpha_char_plain in Hc0 as (_ & _ & Hc0).
    apply Forall_cons in Hc0 as [Hc0 _]. by apply negb_true_iff in Hc0. }
  rewrite find_append_avoids by done. cbn [fmap option_fmap option_map].
  rewrite Hc0. cbn [Str.take Str.drop Str.forallb].
  rewrite take_append.
  apply alpha_char_plain in Hc0 as (-> & _).
  rewrite (forallb_impl Str.is_ascii_alpha UrlParse.scheme_char proto
             (λ c Hc, proj1 (alpha_char_plain c Hc)) Hproto).
  cbn [andb].
  f_equal. exact (drop_append_cons proto rest ":").
Qed.

Lemma splitnetloc_location location :
  Str.forallb netloc_char location = true →
  UrlParse._splitnetloc (String "/" (String "/" location)) 2 = (location, "").
Proof.
  intros Hloc.
  assert (∀ x, x ∈ ["/"; "?"; "#"]%char → Str.find x location = None) as Hfind.
  { intros x Hx. apply avoids_find.
    eapply (forallb_avoids netloc_char); [| |exact Hloc].
    - intros c Hc. apply netloc_char_plain in Hc as (_ & Hc). exact Hc.
    - in_list. }
  unfold UrlParse._splitnetloc, Str.find_from. cbn [Str.drop fold_left].
  rewrite !Hfind by in_list. cbn [fmap option_fmap option_map String.length].
  rewrite Nat.sub_succ, Nat.sub_succ, Nat.sub_0_r, take_all.
  f_equal. exact (drop_all location).
Qed.

Lemma urlparse_full_url proto location :
  proto ≠ "" → Str.forallb Str.is_ascii_alpha proto = true →
  Str.forallb netloc_char location = true →
  UrlParse.urlparse bracketed_netloc_ok nfkc_netloc_ok (proto ++ "://" ++ location) =
    Some {| UrlParse.scheme := Str.lower proto; UrlParse.netloc := location;
            UrlParse.path := ""; UrlParse.params := ""; UrlParse.query := "";
            UrlParse.fragment := "" |}.
Proof.
  intros Hne Hproto Hloc.
  destruct proto as [|c0 proto]; [done|]. clear Hne.
  cbn [Str.forallb] in Hproto. apply andb_true_iff in Hproto as [Hc0 Hproto].
  change (String c0 proto ++ "://" ++ location)
    with (String c0 (proto ++ String ":" (String "/" (String "/" location)))).
  set (url := String c0 (proto ++ String ":" (String "/" (String "/" location)))).
  assert (∀ x, x ∈ ["009"; "010"; "013"]%char → avoids x url) as Hsafe.
  { intros x Hx. unfold avoids, url. cbn [Str.forallb]. rewrite forallb_append.
    cbn [Str.forallb].
    assert (∀ c, Str.is_ascii_alpha c = true → negb (Ascii.eqb c x) = true) as Ha.
    { intros c Hc. apply alpha_char_plain in Hc as (_ & _ & Hc).
      rewrite Forall_forall in Hc. apply Hc. in_list. }
    assert (∀ c, netloc_char c = true → negb (Ascii.eqb c x) = true) as Hn.
    { intros c Hc. apply netloc_char_plain in Hc as (_ & Hc).
      rewrite Forall_forall in Hc. apply Hc. in_list. }
    rewrite (Ha c0 Hc0), (forallb_impl _ _ _ Ha Hproto), (forallb_impl _ _ _ Hn Hloc).
    repeat (apply elem_of_cons in Hx as [->|Hx]; [done|]). by apply elem_of_nil in Hx. }
  assert (∀ x, x ∈ ["["; "]"]%char → Str.contains_char x location = false) as Hbr.
  { intros x Hx. apply avoids_contains_char.
    eapply (forallb_avoids netloc_char); [| |exact Hloc].
    - intros c Hc. apply netloc_char_plain in Hc as (_ & Hc). exact Hc.
    - in_list. }
  unfold UrlParse.urlparse, UrlParse.urlsplit.
  assert (Str.lstrip UrlParse.c0_control_or_space url = url) as ->.
  { unfold url. cbn [Str.lstrip]. by apply alpha_char_plain in Hc0 as (_ & -> & _). }
  assert (UrlParse.remove_unsafe url = url) as ->.
  { unfold UrlParse.remove_unsafe.
    rewrite (avoids_remove_char "009" url) by (apply Hsafe; in_list).
    rewrite (avoids_remove_char "013" url) by (apply Hsafe; in_list).
    by rewrite (avoids_remove_char "010" url) by (apply Hsafe; in_list). }
  unfold url. rewrite (split_scheme_proto _ _ _ Hc0 Hproto).
  assert (String.prefix "//" (String "/" (String "/" location)) = true) as ->
    by exact (prefix_append "//" location).
  cbv iota. rewrite (splitnetloc_location _ Hloc).
  rewrite !Hbr by in_list. cbn [andb orb negb]. cbn [mbind option_bind].
  unfold UrlParse.checknetloc.
  rewrite (forallb_impl netloc_char Str.is_ascii location
             (λ c Hc, proj1 (netloc_char_plain c Hc)) Hloc).
  rewrite orb_true_r. cbn [orb].
  change (Str.split1 "#" "") with (@None (string * string)).
  cbn [default from_option]. cbv beta iota.
  change (Str.split1 "?" "") with (@None (string * string)).
  cbn [default from_option mbind option_bind]. cbv beta iota.
  change (Str.contains_char ";" "") with false.
  by rewrite andb_false_r.
Qed.

(** X16.  Constructing a hub from a full URL, a scheme of ASCII letters
    followed by [://] and a host with an optional port, takes the scheme in
    lower case and the host from the URL, and the API base URL is
    [{scheme}://{host}/apps/api/{app_id}]. *)
Theorem init_full_url proto location app access_token port address :
  proto ≠ "" → Str.forallb Str.is_ascii_alpha proto = true →
  location ≠ "" → Str.forallb netloc_char location = true →
  app ≠ "" → access_token ≠ "" →
  ∃ h, __init__ (proto ++ "://" ++ location) app access_token port address = Ok h ∧
       scheme h = Str.lower proto ∧
       host h = location ∧
       api_url h = Str.lower proto ++ "://" ++ location ++ "/apps/api/" ++ app.
Proof.
  intros Hproto Halpha Hloc Hnet Happ Htoken. unfold __init__.
  rewrite (urlparse_full_url _ _ Hproto Halpha Hnet).
  apply String.eqb_neq in Happ, Htoken, Hloc. rewrite Happ, Htoken.
  destruct proto as [|c0 proto]; [done|].
  rewrite app_cons. cbn [String.eqb orb UrlParse.scheme UrlParse.netloc Str.lower].
  rewrite Hloc. by eexists.
Qed.

Lemma init_state name app access_token port address h :
  __init__ name app access_token port address = Ok h →
  _devices h = ∅ ∧ _listeners h = ∅ ∧ _started h = false.
Proof.
  unfold __init__. destruct (_ || _); [discriminate|].
  destruct (UrlParse.urlparse _ _ name); [|discriminate].
  by intros [= <-].
Qed.

(** X17.  A hub as [__init__] returns it caches no device and has no
    listener: every event is a no-op on it, [get_device_attribute] returns
    [None] and [device_has_attribute] raises [KeyError]. *)
Theorem init_empty_hub name app access_token port address h :
  __init__ name app access_token port address = Ok h →
  _started h = false ∧
  (∀ device_id attr_name,
     get_device_attribute h device_id attr_name = Ok None ∧
     device_has_attribute h device_id attr_name = Raise (KeyError device_id)) ∧
  ∀ event device_id attr_name value sent calls,
    is_event event device_id attr_name value →
    process_event event {| hub := h; requests := sent; called := calls |} =
      (Ok tt, {| hub := h; requests := sent; called := calls |}).
Proof.
  intros (Hdevices & Hlisteners & Hstarted)%init_state.
  split; [done|]. split.
  - intros device_id attr_name. unfold get_device_attribute, device_has_attribute.
    by rewrite Hdevices, lookup_empty.
  - intros event device_id attr_name value sent calls Hev.
    rewrite (process_event_dispatch _ _ _ _ _ Hev), update_device_attr_run.
    unfold registered. simpl. rewrite Hdevices, Hlisteners, !lookup_empty. simpl.
    unfold with_called. simpl. by rewrite app_nil_r.
Qed.

(** ** Commands and the event URL *)

(** X18.  [send_command], [set_event_url] and [_check_api] send exactly one
    request each and leave the hub object as it is, whatever the hub
    answers: the cache changes through events and loads only. *)
Theorem one_request_and_same_hub device_id command arg event_url w :
  snd (send_command device_id command arg w) =
    with_request (api_call (hub w) (command_path device_id command arg) "GET") w ∧
  snd (set_event_url event_url w) =
    with_request (api_call (hub w) ("postURL/" ++ UrlParse.quote event_url) "GET") w ∧
  snd (_check_api w) = with_request (api_call (hub w) "devices" "GET") w.
Proof.
  unfold send_command, set_event_url, _check_api, mbind, M_bind.
  rewrite !api_request_run.
  repeat split; simpl.
  - destruct (http _ _) as [resp|e]; [|done]. by destruct (check_response resp).
  - destruct (http _ _) as [resp|e]; [|done]. by destruct (check_response resp).
Qed.

Lemma quote_char_alphabet c : Str.forallb quoted_char (UrlParse.quote_char c) = true.
Proof. by destruct c as [[] [] [] [] [] [] [] []]; vm_compute. Qed.

Lemma quote_alphabet s : Str.forallb quoted_char (UrlParse.quote s) = true.
Proof.
  induction s as [|c s IH]; [done|].
  cbn [UrlParse.quote]. by rewrite forallb_append, quote_char_alphabet, IH.
Qed.

Lemma quoted_char_plain c :
  quoted_char c = true →
  Forall (λ x, negb (Ascii.eqb c x) = true) ["/"; "?"; "#"; "&"; "="; ":"; " "]%char.
Proof.
  destruct c as [[] [] [] [] [] [] [] []]; vm_compute; intros Hc;
    try discriminate Hc; repeat constructor.
Qed.

(** X19.  [set_event_url] requests [postURL/] followed by the quoted URL,
    and the quoted URL is made of unreserved characters and percent escapes
    only: whatever the event URL is, its slashes, colons, question marks
    and spaces do not reach the path of the request. *)
Theorem set_event_url_quotes event_url w :
  let quoted := UrlParse.quote event_url in
  requests (snd (set_event_url event_url w)) =
    (requests w ++ [api_call (hub w) ("postURL/" ++ quoted) "GET"])%list ∧
  Str.forallb quoted_char quoted = true ∧
  Forall (λ x, Str.contains_char x quoted = false) ["/"; "?"; "#"; "&"; "="; ":"; " "]%char.
Proof.
  intros quoted. split; [|split].
  - unfold set_event_url, mbind, M_bind. rewrite api_request_run.
    destruct (http _ _) as [resp|e]; [|done]. by destruct (check_response resp).
  - apply quote_alphabet.
  - apply Forall_forall. intros x Hx. apply avoids_contains_char.
    eapply (forallb_avoids quoted_char); [exact quoted_char_plain|exact Hx|].
    apply quote_alphabet.
Qed.

(** [quote] leaves a text of letters, digits and [_.-~] as it is. *)
Lemma quote_safe_text s :
  Str.forallb UrlParse.always_safe s = true → UrlParse.quote s = s.
Proof.
  induction s as [|c s IH]; [done|].
  cbn [Str.forallb UrlParse.quote]. intros [Hc Hs]%andb_true_iff.
  unfold UrlParse.quote_char. rewrite Hc, (IH Hs). reflexivity.
Qed.

Lemma unquote_head_quote_char c rest :
  unquote_head (UrlParse.quote_char c ++ rest) = Some (c, rest).
Proof. by destruct c as [[] [] [] [] [] [] [] []]; vm_compute. Qed.

(** [quote] loses nothing. *)
Lemma quote_injective s1 s2 : UrlParse.quote s1 = UrlParse.quote s2 → s1 = s2.
Proof.
  revert s2. induction s1 as [|c1 s1 IH]; intros [|c2 s2]; cbn [UrlParse.quote];
    intros Heq; [done| | |].
  - apply (f_equal unquote_head) in Heq. by rewrite unquote_head_quote_char in Heq.
  - apply (f_equal unquote_head) in Heq. by rewrite unquote_head_quote_char in Heq.
  - apply (f_equal unquote_head) in Heq. rewrite !unquote_head_quote_char in Heq.
    injection Heq as -> Heq. by rewrite (IH _ Heq).
Qed.

Lemma append_cancel (a b c : string) : a ++ b = a ++ c → b = c.
Proof.
  induction a as [|x a IH]; [done|]. rewrite !app_cons. intros [= Heq]. by apply IH.
Qed.

Lemma set_event_url_world event_url w :
  snd (set_event_url event_url w) =
    with_request (api_call (hub w) ("postURL/" ++ UrlParse.quote event_url) "GET") w.
Proof.
  unfold set_event_url, mbind, M_bind. rewrite api_request_run.
  destruct (http _ _) as [resp|e]; [|done]. by destruct (check_response resp).
Qed.

(** X20.  [set_event_url] tells event URLs apart: from the same world, two
    event URLs for which it sends the same request are the same URL. *)
Theorem set_event_url_injective url1 url2 w :
  requests (snd (set_event_url url1 w)) = requests (snd (set_event_url url2 w)) →
  url1 = url2.
Proof.
  rewrite !set_event_url_world. unfold with_request, api_call. simpl.
  intros Heq%app_inv_head. injection Heq as Heq.
  by apply append_cancel, append_cancel, append_cancel, quote_injective in Heq.
Qed.

(** ** Hub details *)

Lemma details_mapping_fields heading key :
  _DETAILS_MAPPING !! heading = Some key → key ∈ detail_fields.
Proof.
  intros Hkey%elem_of_list_to_map_2. unfold detail_fields.
  repeat (apply elem_of_cons in Hkey as [[= _ <-]|Hkey]; [in_list|]).
  by apply elem_of_nil in Hkey.
Qed.

Lemma parse_groups_keys details groups info key :
  parse_groups details groups = Ok info →
  is_Some (info !! key) → is_Some (details !! key) ∨ key ∈ detail_fields.
Proof.
  revert details. induction groups as [|g rest IH]; intros details; simpl.
  - intros [= <-]. auto.
  - destruct (stripped_text (menu_header g)) as [heading|e]; simpl; [|discriminate].
    destruct (stripped_text (menu_text g)) as [content|e]; simpl; [|discriminate].
    destruct (_DETAILS_MAPPING !! heading) as [k|] eqn:Hk; [|by apply IH].
    intros Hparse Hin. destruct (IH _ Hparse Hin) as [Hold|?]; [|by right].
    destruct (decide (k = key)) as [<-|Hne].
    + right. by eapply details_mapping_fields.
    + left. by rewrite lookup_insert_ne in Hold.
Qed.

(** X21.  [_parse_details] returns only the five fields of
    [_DETAILS_MAPPING]: a label it does not know adds nothing. *)
Theorem parse_details_fields tag info key :
  _parse_details tag = Ok info → is_Some (info !! key) → key ∈ detail_fields.
Proof.
  destruct tag as [groups|]; [|discriminate]. simpl. intros Hparse Hin.
  destruct (parse_groups_keys _ _ _ _ Hparse Hin) as [Hempty|?]; [|done].
  rewrite lookup_empty in Hempty. by destruct Hempty.
Qed.

Lemma parse_groups_complete details groups :
  Forall (λ g, ¬ incomplete g) groups → ∃ info, parse_groups details groups = Ok info.
Proof.
  intros Hall. revert details. induction Hall as [|g rest Hg _ IH]; intros details; simpl.
  - by eexists.
  - destruct (menu_header g) as [heading|] eqn:Hh; [|by destruct Hg; left].
    destruct (menu_text g) as [content|] eqn:Ht; [|by destruct Hg; right].
    simpl. destruct (_DETAILS_MAPPING !! _); apply IH.
Qed.

Lemma parse_groups_incomplete details groups :
  Exists incomplete groups → parse_groups details groups = Raise (AttributeError "text").
Proof.
  intros Hsome. revert details.
  induction groups as [|g rest IH]; intros details; [by apply Exists_nil in Hsome|].
  simpl. destruct (menu_header g) as [heading|] eqn:Hh; [|done].
  destruct (menu_text g) as [content|] eqn:Ht; [|done].
  simpl. apply Exists_cons in Hsome as [[Hg|Hg]|Hrest]; [congruence|congruence|].
  destruct (_DETAILS_MAPPING !! _); by apply IH.
Qed.

(** X22.  [_parse_details] raises [AttributeError] exactly when the tag is
    [None] or one of the siblings lacks its header or its text, and then
    nothing of what the other siblings say is returned. *)
Theorem parse_details_raises tag :
  (∃ info, _parse_details tag = Ok info) ↔
  ∃ groups, tag = Some groups ∧ Forall (λ g, ¬ incomplete g) groups.
Proof.
  split.
  - intros [info Hparse]. destruct tag as [groups|]; [|discriminate].
    exists groups. split; [done|]. apply Forall_forall. intros g Hg Hinc.
    assert (Exists incomplete groups) as Hsome by (apply Exists_exists; eauto).
    simpl in Hparse. by rewrite (parse_groups_incomplete _ _ Hsome) in Hparse.
  - intros (groups & -> & Hall). by apply parse_groups_complete.
Qed.

Lemma parse_groups_last details groups info key :
  parse_groups details groups = Ok info →
  info !! key =
    match last (omap (detail_for key) groups) with
    | Some content => Some content
    | None => details !! key
    end.
Proof.
  revert details. induction groups as [|g rest IH]; intros details; simpl.
  - by intros [= <-].
  - unfold detail_for at 1.
    destruct (menu_header g) as [heading|]; simpl; [|discriminate].
    destruct (menu_text g) as [content|]; simpl; [|discriminate].
    destruct (_DETAILS_MAPPING !! Str.strip heading) as [k|] eqn:Hk.
    + intros Hparse. rewrite (IH _ Hparse).
      destruct (decide (k = key)) as [->|Hne].
      * rewrite bool_decide_eq_true_2 by done. rewrite last_cons.
        destruct (last _); [done|]. by rewrite lookup_insert_eq.
      * rewrite bool_decide_eq_false_2 by congruence.
        destruct (last _); [done|]. by rewrite lookup_insert_ne.
    + intros Hparse. rewrite (IH _ Hparse).
      by rewrite bool_decide_eq_false_2 by congruence.
Qed.

(** X23.  Of several siblings with the same label the last one wins, and a
    field no sibling gives is absent: after a successful parse the hardware
    version, software version and MAC address of the hub are the stripped
    texts of the last siblings so labelled, and [unknown] without one. *)
Theorem parse_details_last_wins groups info h :
  _parse_details (Some groups) = Ok info →
  _info h = info →
  (∀ key, info !! key = last (omap (detail_for key) groups)) ∧
  hw_version h = default "unknown" (last (omap (detail_for "hw_version") groups)) ∧
  sw_version h = default "unknown" (last (omap (detail_for "sw_version") groups)) ∧
  mac h = default "unknown" (last (omap (detail_for "mac") groups)).
Proof.
  simpl. intros Hparse Hinfo.
  assert (∀ key, info !! key = last (omap (detail_for key) groups)) as Hlast.
  { intros key. rewrite (parse_groups_last _ _ _ key Hparse), lookup_empty.
    by destruct (last _). }
  split; [done|]. unfold hw_version, sw_version, mac. by rewrite Hinfo, !Hlast.
Qed.

(** ** Entries of the documented shape *)

(** X24.  On a cached entry of the documented shape, a [dict] whose
    [attributes] is a [list] of [dict]s with a [name], neither read raises:
    [device_has_attribute] says whether an attribute has the name and
    [get_device_attribute] returns the first attribute that has it. *)
Theorem documented_shape_reads h device_id attr_name state :
  _devices h !! device_id = Some state → device_shape state = true →
  device_has_attribute h device_id attr_name =
    Ok (existsb (attr_named attr_name) (attributes_of state)) ∧
  get_device_attribute h device_id attr_name =
    Ok (find (attr_named attr_name) (attributes_of state)).
Proof.
  intros Hdev Hshape. unfold device_has_attribute, get_device_attribute. rewrite Hdev.
  destruct state as [| | | | | |d]; simpl in *; try discriminate.
  destruct d as [|kv d]; [discriminate|].
  destruct (dict_get (kv :: d) "attributes") as [[]|]; try discriminate.
  simpl. by rewrite has_attr_loop_shape, get_attr_loop_shape.
Qed.

Lemma attribute_shape_replace pre a post value :
  forallb attribute_shape (pre ++ PDict (dict_set a "currentValue" value) :: post) =
    forallb attribute_shape (pre ++ PDict a :: post).
Proof.
  rewrite !forallb_app. simpl. by rewrite dict_get_set_ne.
Qed.

(** X25.  Updates keep the documented shape: whatever [_update_device_attr]
    does, every cached entry that had the shape before has it afterwards. *)
Theorem update_device_attr_keeps_shape device_id attr_name value w other state :
  _devices (hub w) !! other = Some state → device_shape state = true →
  ∃ state',
    _devices (hub (snd (_update_device_attr device_id attr_name value w))) !! other =
      Some state' ∧
    device_shape state' = true.
Proof.
  intros Hother Hshape. rewrite update_device_attr_run.
  destruct (_devices (hub w) !! device_id) as [entry|] eqn:Hdev; [|eauto].
  destruct (update_state device_id attr_name value entry) as [entry'|e] eqn:Hupd; [|eauto].
  apply update_state_ok in Hupd as (d & pre & a & post & -> & Hd & Hfirst & ->).
  simpl. destruct (decide (other = device_id)) as [->|Hne].
  - rewrite lookup_insert_eq. eexists. split; [done|].
    rewrite Hdev in Hother. injection Hother as <-.
    simpl in *. rewrite dict_get_set_eq. rewrite Hd in Hshape.
    by rewrite attribute_shape_replace.
  - rewrite lookup_insert_ne by done. eauto.
Qed.

(** X26.  An event whose content lacks [deviceId], [name] or [value] raises
    [KeyError] for a missing key and changes nothing: the cache is not
    touched and no listener is called. *)
Theorem process_event_missing_key event content key w :
  py_getitem event "content" = Ok (PDict content) →
  key ∈ ["deviceId"; "name"; "value"] →
  dict_get content key = None →
  ∃ missing,
    missing ∈ ["deviceId"; "name"; "value"] ∧
    dict_get content missing = None ∧
    process_event event w = (Raise (KeyError missing), w).
Proof.
  intros Hcontent Hkey Hnone. unfold process_event, mbind at 1 2 3 4, M_bind, lift.
  rewrite Hcontent. simpl.
  destruct (dict_get content "deviceId") eqn:Hid;
    [|exists "deviceId"; split; [in_list|done]].
  destruct (dict_get content "name") eqn:Hname;
    [|exists "name"; split; [in_list|done]].
  destruct (dict_get content "value") eqn:Hvalue;
    [|exists "value"; split; [in_list|done]].
  exfalso.
  repeat (apply elem_of_cons in Hkey as [->|Hkey]; [congruence|]).
  by apply elem_of_nil in Hkey.
Qed.

End Environment.

(** ** The statements at the sample data *)

Lemma sample_is_event device_id attr_name value :
  is_event (Sample.event device_id attr_name value) device_id attr_name value.
Proof.
  eexists. unfold Sample.event. simpl. split; [reflexivity|]. simpl. auto.
Qed.

(** *** The request layer *)

(** Scenario D of the specification: a 200 response whose body has a truthy
    [error] field is a [RequestError]. *)
Lemma api_request_classification_witness :
  let resp := Sample.ok_response (PDict [("error", PBool true)]) in
  _api_request (Sample.answers resp) "devices" "GET" Sample.world =
    (Raise (RequestError resp),
     with_request (api_call Sample.the_hub "devices" "GET") Sample.world).
Proof.
  intros resp.
  apply (api_request_classification (Sample.answers resp) "devices" "GET" Sample.world
           resp (PDict [("error", PBool true)])).
  - reflexivity.
  - intros _. split; reflexivity.
Defined.

(** A 200 response whose decoded body is [null] has no [error] field, so the
    classification of the specification returns the body; the request raises
    [TypeError] instead, from the test ["error" in json]. *)
Lemma api_request_null_body_counterexample :
  let resp := Sample.ok_response PNone in
  let run := _api_request (Sample.answers resp) "devices/1922/refresh" "GET" Sample.world in
  json resp = Some PNone ∧
  api_outcome_spec resp PNone = Ok PNone ∧
  fst run = Raise TypeError ∧
  fst run ≠ api_outcome_spec resp PNone.
Proof. vm_compute. repeat split; discriminate. Qed.

(** Scenario C of the specification: a 401 is [InvalidToken] on any request,
    whatever the body. *)
Lemma api_request_unauthorized path method w body :
  fst (_api_request (Sample.answers {| status := 401; json := body |}) path method w) =
    Raise InvalidToken.
Proof. by rewrite api_request_run. Qed.

(** *** Events *)

Lemma process_event_updates_and_notifies_witness :
  let listeners := registered (hub Sample.world) "1922" in
  ∃ w' attr,
    process_event Sample.quiet (Sample.event "1922" "switch" (PStr "on")) Sample.world =
      (outcome Sample.quiet listeners, w') ∧
    get_device_attribute (hub w') "1922" "switch" = Ok (Some attr) ∧
    py_getitem attr "currentValue" = Ok (PStr "on") ∧
    called w' = (called Sample.world ++ invoked Sample.quiet listeners)%list ∧
    (Forall (λ l, Sample.quiet l = None) listeners →
     outcome Sample.quiet listeners = Ok tt ∧ invoked Sample.quiet listeners = listeners).
Proof.
  apply (process_event_updates_and_notifies Sample.quiet
           (Sample.event "1922" "switch" (PStr "on")) "1922" "switch" (PStr "on")
           Sample.world).
  - apply sample_is_event.
  - vm_compute. reflexivity.
Defined.

(** Listeners 1 and 2 are registered for the cached device 1922; when
    listener 1 raises, listener 2 is not called and the call does not
    return normally. *)
Lemma process_event_raising_listener_counterexample :
  let run := process_event Sample.first_raises
               (Sample.event "1922" "switch" (PStr "on")) Sample.world in
  device_has_attribute Sample.the_hub "1922" "switch" = Ok true ∧
  registered Sample.the_hub "1922" = [1; 2]%nat ∧
  fst run = Raise (ListenerError 1) ∧
  called (snd run) = [1%nat] ∧
  called (snd run) ≠ (called Sample.world ++ registered Sample.the_hub "1922")%list.
Proof. vm_compute. repeat split; discriminate. Qed.

Lemma process_event_unknown_device_witness :
  let listeners := registered (hub Sample.world) "7" in
  process_event Sample.quiet (Sample.event "7" "switch" (PStr "on")) Sample.world =
    (outcome Sample.quiet listeners, with_called (invoked Sample.quiet listeners) Sample.world) ∧
  hub (snd (process_event Sample.quiet (Sample.event "7" "switch" (PStr "on")) Sample.world)) =
    hub Sample.world ∧
  (listeners = [] →
   process_event Sample.quiet (Sample.event "7" "switch" (PStr "on")) Sample.world =
     (Ok tt, Sample.world)).
Proof.
  apply (process_event_unknown_device Sample.quiet
           (Sample.event "7" "switch" (PStr "on")) "7" "switch" (PStr "on") Sample.world).
  - apply sample_is_event.
  - vm_compute. reflexivity.
Defined.

(** Device 42 is not in the registry and listener 7 is registered for it:
    the event returns normally and listener 7 has been called. *)
Lemma process_event_unknown_device_counterexample :
  let run := process_event Sample.quiet
               (Sample.event "42" "switch" (PStr "on")) Sample.world in
  _devices Sample.the_hub !! "42" = None ∧
  fst run = Ok tt ∧
  called (snd run) = [7%nat] ∧
  snd run ≠ Sample.world.
Proof. vm_compute. repeat split; discriminate. Qed.

Lemma process_event_unknown_attribute_witness :
  process_event Sample.quiet (Sample.event "1922" "colour" (PStr "red")) Sample.world =
    (Raise (InvalidAttribute "Device 1922 has no attribute colour"), Sample.world).
Proof.
  apply (process_event_unknown_attribute Sample.quiet
           (Sample.event "1922" "colour" (PStr "red")) "1922" "colour" (PStr "red")
           Sample.world).
  - apply sample_is_event.
  - vm_compute. reflexivity.
Defined.

(** Scenario B of the specification, as an instance of the frame property. *)
Lemma process_event_frame_witness :
  let w' := snd (process_event Sample.quiet
                   (Sample.event "1922" "switch" (PStr "on")) Sample.world) in
  _listeners (hub w') = _listeners (hub Sample.world) ∧
  requests w' = requests Sample.world ∧
  (∃ ds, hub w' = set_devices (λ _, ds) (hub Sample.world)) ∧
  (∀ other, other ≠ "1922" →
            _devices (hub w') !! other = _devices (hub Sample.world) !! other) ∧
  (∀ other, other ≠ "switch" →
     get_device_attribute (hub w') "1922" other =
       get_device_attribute (hub Sample.world) "1922" other) ∧
  ∃ state state' pre attr attr' post,
    _devices (hub Sample.world) !! "1922" = Some state ∧
    _devices (hub w') !! "1922" = Some state' ∧
    (∀ k, k ≠ "attributes" → py_getitem state' k = py_getitem state k) ∧
    py_getitem state "attributes" = Ok (PList (pre ++ attr :: post)) ∧
    py_getitem state' "attributes" = Ok (PList (pre ++ attr' :: post)) ∧
    py_getitem attr "name" = Ok (PStr "switch") ∧
    Forall (λ x, ∃ n, py_getitem x "name" = Ok n ∧ n ≠ PStr "switch") pre ∧
    (∀ k, k ≠ "currentValue" → py_getitem attr' k = py_getitem attr k) ∧
    py_getitem attr' "currentValue" = Ok (PStr "on").
Proof.
  apply (process_event_frame Sample.quiet
           (Sample.event "1922" "switch" (PStr "on")) "1922" "switch" (PStr "on")
           Sample.world).
  - apply sample_is_event.
  - vm_compute. reflexivity.
Defined.

(** *** Loading and reading *)

(** The cached bedroom light is refreshed: the entry becomes the answer of
    the hub, and the [label] of the old entry is gone with it. *)
Lemma load_device_cached_and_forced_witness :
  let http := Sample.answers (Sample.ok_response Sample.dimmed_light) in
  let rq := api_call (hub Sample.world) ("devices/" ++ "1922") "GET" in
  let forced := _load_device http "1922" true Sample.world in
  _devices (hub Sample.world) !! "1922" = Some Sample.bedroom_light ∧
  _load_device http "1922" false Sample.world = (Ok tt, Sample.world) ∧
  requests (snd forced) = [rq] ∧
  fst forced = Ok tt ∧
  _devices (hub (snd forced)) !! "1922" = Some Sample.dimmed_light ∧
  (v ← _devices (hub (snd forced)) !! "1922"; Some (py_getitem v "label")) =
    Some (Raise (KeyError "label")).
Proof.
  intros http rq forced.
  assert (is_Some (_devices (hub Sample.world) !! "1922")) as Hcached
    by (vm_compute; eauto).
  destruct (load_device_cached_and_forced http "1922" Sample.world Hcached)
    as (Hunforced & Hrequests & _ & Hstored & _).
  destruct (Hstored (Sample.ok_response Sample.dimmed_light) Sample.dimmed_light
              eq_refl eq_refl) as (Hok & Hentry & _).
  split; [reflexivity|]. split; [exact Hunforced|]. split; [exact Hrequests|].
  split; [exact Hok|]. split; [exact Hentry|].
  fold forced in Hentry. unfold forced in *. rewrite Hentry. reflexivity.
Defined.

Lemma attribute_lookup_asymmetry_witness :
  get_device_attribute Sample.the_hub "7" "switch" = Ok None ∧
  get_device_attribute Sample.the_hub "1922" "colour" = Ok None ∧
  device_has_attribute Sample.the_hub "7" "switch" = Raise (KeyError "7").
Proof.
  split; [|split].
  - apply (proj1 (attribute_lookup_asymmetry Sample.the_hub "7" "switch")).
    vm_compute. reflexivity.
  - apply (proj1 (proj2 (attribute_lookup_asymmetry Sample.the_hub "1922" "colour"))).
    vm_compute. reflexivity.
  - apply (proj2 (proj2 (attribute_lookup_asymmetry Sample.the_hub "7" "switch"))).
    vm_compute. reflexivity.
Defined.

(** *** Construction *)

(** Scenario A of the specification. *)
Lemma init_bare_host_witness :
  ∃ h, __init__ Sample.no_check Sample.no_check "10.0.1.99" "12" "secret" None None = Ok h ∧
       scheme h = "http" ∧
       host h = "10.0.1.99" ∧
       api_url h = "http://" ++ "10.0.1.99" ++ "/apps/api/" ++ "12".
Proof.
  apply (init_bare_host Sample.no_check Sample.no_check "10.0.1.99" "12" "secret" None None).
  - split; [discriminate|reflexivity].
  - discriminate.
  - discriminate.
Defined.

(** *** Commands and shutdown *)

(** C8.  [send_command] is meant to request [devices/{id}/{command}/{arg}]
    whenever an argument is given.  For the argument 0 the source tests
    [if arg:], finds it falsy and requests [devices/1922/setLevel]: the
    argument is dropped. *)
Theorem send_command_drops_zero_argument :
  ∀ (http : list Request → Request → result Response),
    command_path "1922" "setLevel" (Some (ArgInt 0)) = "devices/1922/setLevel" ∧
    requests (snd (send_command http "1922" "setLevel" (Some (ArgInt 0)) Sample.world)) =
      [api_call Sample.the_hub "devices/1922/setLevel" "GET"] ∧
    req_url (api_call Sample.the_hub "devices/1922/setLevel" "GET") =
      "http://10.0.1.99/apps/api/12/devices/1922/setLevel" ∧
    command_path "1922" "setLevel" (Some (ArgInt 50)) = "devices/1922/setLevel/50".
Proof.
  intros http. split; [reflexivity|]. split; [|split; reflexivity].
  unfold send_command. by rewrite api_request_run.
Qed.

(** C9.  [stop] is meant to succeed whether or not the server was started.
    On a hub that was constructed and given a listener, but whose [start]
    never assigned [self._server], it raises [AttributeError] and the
    listener stays registered. *)
Theorem stop_before_start_raises :
  ∃ h,
    __init__ Sample.no_check Sample.no_check "10.0.1.99" "12" "secret" None None = Ok h ∧
    let w := {| hub := add_device_listener "1922" 1%nat h; requests := []; called := [] |} in
    stop w = (Raise (AttributeError "_server"), w) ∧
    registered (hub (snd (stop w))) "1922" = [1%nat].
Proof. eexists. split; [vm_compute; reflexivity|]. vm_compute. auto. Qed.

(** ** Further statements at the sample data *)

Lemma update_device_attr_commute_witness :
  fst (_update_device_attr "1923" "switch" (PStr "off")
         (snd (_update_device_attr "1922" "level" (PInt 40) Sample.home))) =
    fst (_update_device_attr "1923" "switch" (PStr "off") Sample.home) ∧
  snd (_update_device_attr "1923" "switch" (PStr "off")
         (snd (_update_device_attr "1922" "level" (PInt 40) Sample.home))) =
    snd (_update_device_attr "1922" "level" (PInt 40)
           (snd (_update_device_attr "1923" "switch" (PStr "off") Sample.home))).
Proof.
  apply (update_device_attr_commute "1922" "level" (PInt 40) "1923" "switch" (PStr "off")
           Sample.home).
  discriminate.
Defined.

Lemma added_listener_is_called_witness :
  called (snd (process_event Sample.quiet (Sample.event "1922" "switch" (PStr "on"))
                 (with_hub (add_device_listener "1922" 2%nat (hub Sample.world))
                    Sample.world))) =
    (called Sample.world ++
     invoked Sample.quiet (registered (hub Sample.world) "1922" ++ [2%nat]))%list.
Proof.
  apply (added_listener_is_called Sample.quiet (Sample.event "1922" "switch" (PStr "on"))
           "1922" "switch" (PStr "on") 2%nat Sample.world).
  - apply sample_is_event.
  - vm_compute. reflexivity.
Defined.

Lemma removed_listeners_are_not_called_witness :
  called (snd (process_event Sample.quiet (Sample.event "1922" "switch" (PStr "on"))
                 (with_hub (remove_device_listeners "1922" (hub Sample.world))
                    Sample.world))) =
    called Sample.world ∧
  ∀ other, other ≠ "1922" →
           registered (remove_device_listeners "1922" (hub Sample.world)) other =
             registered (hub Sample.world) other.
Proof.
  apply (removed_listeners_are_not_called Sample.quiet
           (Sample.event "1922" "switch" (PStr "on")) "1922" "switch" (PStr "on")
           Sample.world).
  apply sample_is_event.
Defined.

Lemma stop_silences_listeners_witness :
  fst (stop Sample.world) = Ok tt ∧
  _devices (hub (snd (stop Sample.world))) = _devices (hub Sample.world) ∧
  called (snd (process_event Sample.quiet (Sample.event "1922" "switch" (PStr "on"))
                 (snd (stop Sample.world)))) =
    called Sample.world ∧
  _devices (hub (snd (process_event Sample.quiet
                        (Sample.event "1922" "switch" (PStr "on"))
                        (snd (stop Sample.world))))) =
    _devices (hub (snd (_update_device_attr "1922" "switch" (PStr "on") Sample.world))).
Proof.
  apply (stop_silences_listeners Sample.quiet
           {| url := "http://10.0.1.5:39501"; running := true |}
           (Sample.event "1922" "switch" (PStr "on")) "1922" "switch" (PStr "on")
           Sample.world).
  - reflexivity.
  - apply sample_is_event.
Defined.

Lemma load_device_fetches_once_witness :
  let rq := api_call (hub Sample.new_world) ("devices/" ++ "1922") "GET" in
  let w' := snd (_load_device Sample.maker_api "1922" false Sample.new_world) in
  fst (_load_device Sample.maker_api "1922" false Sample.new_world) = Ok tt ∧
  _devices (hub w') !! "1922" = Some Sample.bedroom_light ∧
  requests w' = (requests Sample.new_world ++ [rq])%list ∧
  _load_device Sample.maker_api "1922" false w' = (Ok tt, w').
Proof.
  apply (load_device_fetches_once Sample.maker_api "1922" Sample.new_world
           (Sample.ok_response Sample.bedroom_light) Sample.bedroom_light).
  - reflexivity.
  - vm_compute. reflexivity.
  - vm_compute. reflexivity.
Defined.

Lemma load_device_failure_keeps_hub_witness :
  hub (snd (_load_device Sample.offline "1922" true Sample.world)) = hub Sample.world.
Proof.
  apply (load_device_failure_keeps_hub Sample.offline "1922" true Sample.world
           (ClientError "Cannot connect to host")).
  vm_compute. reflexivity.
Defined.

Lemma load_devices_skips_when_cached_witness :
  _load_devices Sample.maker_api false Sample.world = (Ok tt, Sample.world).
Proof.
  apply (load_devices_skips_when_cached Sample.maker_api "1922" Sample.world).
  vm_compute. eauto.
Defined.

Lemma registry_never_forgets_witness :
  is_Some (_devices
             (hub (run_all Sample.offline Sample.first_raises
                     [Stop; RefreshDevice "1922";
                      ProcessEvent (Sample.event "1922" "colour" (PStr "red"));
                      LoadDevices true]
                     Sample.world)) !! "1922").
Proof.
  apply (registry_never_forgets Sample.offline Sample.first_raises
           [Stop; RefreshDevice "1922";
            ProcessEvent (Sample.event "1922" "colour" (PStr "red"));
            LoadDevices true]
           Sample.world "1922").
  vm_compute. eauto.
Defined.

(** The first load of the device list on a new hub caches the light. *)
Lemma load_devices_caches_listed_witness :
  Forall (λ device_id,
            is_Some (_devices
                       (hub (snd (_load_devices Sample.maker_api false Sample.new_world)))
                     !! device_id))
         ["1922"].
Proof.
  apply (load_devices_caches_listed Sample.maker_api false Sample.new_world
           (Sample.ok_response Sample.listing) Sample.listing
           [PDict [("id", PStr "1922"); ("name", PStr "Generic Z-Wave Smart Dimmer");
                   ("label", PStr "Bedroom Light")]]
           ["1922"]).
  - right. vm_compute. reflexivity.
  - vm_compute. reflexivity.
  - vm_compute. reflexivity.
  - reflexivity.
  - repeat constructor.
  - vm_compute. reflexivity.
Defined.


Lemma init_full_url_witness :
  ∃ h, __init__ Sample.no_check Sample.no_check ("HTTPS" ++ "://" ++ "hub.local:8443")
         "12" "secret" None None = Ok h ∧
       scheme h = Str.lower "HTTPS" ∧
       host h = "hub.local:8443" ∧
       api_url h = Str.lower "HTTPS" ++ "://" ++ "hub.local:8443" ++ "/apps/api/" ++ "12".
Proof.
  apply (init_full_url Sample.no_check Sample.no_check "HTTPS" "hub.local:8443"
           "12" "secret" None None).
  - discriminate.
  - reflexivity.
  - discriminate.
  - reflexivity.
  - discriminate.
  - discriminate.
Defined.

Lemma init_empty_hub_witness :
  _started Sample.new_hub = false ∧
  (∀ device_id attr_name,
     get_device_attribute Sample.new_hub device_id attr_name = Ok None ∧
     device_has_attribute Sample.new_hub device_id attr_name = Raise (KeyError device_id)) ∧
  ∀ event device_id attr_name value sent calls,
    is_event event device_id attr_name value →
    process_event Sample.quiet event
      {| hub := Sample.new_hub; requests := sent; called := calls |} =
      (Ok tt, {| hub := Sample.new_hub; requests := sent; called := calls |}).
Proof.
  apply (init_empty_hub Sample.quiet Sample.no_check Sample.no_check
           "10.0.1.99" "12" "secret" None None Sample.new_hub).
  vm_compute. reflexivity.
Defined.

Lemma set_event_url_injective_witness :
  "http://10.0.1.5:39501" = "http://10.0.1.5:39501".
Proof.
  apply (set_event_url_injective Sample.offline
           "http://10.0.1.5:39501" "http://10.0.1.5:39501" Sample.world).
  reflexivity.
Defined.

Lemma parse_details_fields_witness : "hw_version" ∈ detail_fields.
Proof.
  apply (parse_details_fields (Some Sample.details) Sample.info "hw_version").
  - vm_compute. reflexivity.
  - vm_compute. eauto.
Defined.

Lemma parse_details_last_wins_witness :
  (∀ key, Sample.info !! key = last (omap (detail_for key) Sample.details)) ∧
  hw_version Sample.informed_hub =
    default "unknown" (last (omap (detail_for "hw_version") Sample.details)) ∧
  sw_version Sample.informed_hub =
    default "unknown" (last (omap (detail_for "sw_version") Sample.details)) ∧
  mac Sample.informed_hub =
    default "unknown" (last (omap (detail_for "mac") Sample.details)).
Proof.
  apply (parse_details_last_wins Sample.details Sample.info Sample.informed_hub).
  - vm_compute. reflexivity.
  - reflexivity.
Defined.

Lemma documented_shape_reads_witness :
  device_has_attribute Sample.the_hub "1922" "switch" =
    Ok (existsb (attr_named "switch") (attributes_of Sample.bedroom_light)) ∧
  get_device_attribute Sample.the_hub "1922" "switch" =
    Ok (find (attr_named "switch") (attributes_of Sample.bedroom_light)).
Proof.
  apply (documented_shape_reads Sample.the_hub "1922" "switch" Sample.bedroom_light).
  - vm_compute. reflexivity.
  - vm_compute. reflexivity.
Defined.

Lemma update_device_attr_keeps_shape_witness :
  ∃ state',
    _devices (hub (snd (_update_device_attr "1922" "level" (PInt 40) Sample.home))) !! "1922" =
      Some state' ∧
    device_shape state' = true.
Proof.
  apply (update_device_attr_keeps_shape "1922" "level" (PInt 40) Sample.home "1922"
           Sample.bedroom_light).
  - vm_compute. reflexivity.
  - vm_compute. reflexivity.
Defined.

Lemma process_event_missing_key_witness :
  ∃ missing,
    missing ∈ ["deviceId"; "name"; "value"] ∧
    dict_get [("deviceId", PStr "1922"); ("name", PStr "switch")] missing = None ∧
    process_event Sample.quiet
      (PDict [("content", PDict [("deviceId", PStr "1922"); ("name", PStr "switch")])])
      Sample.world =
      (Raise (KeyError missing), Sample.world).
Proof.
  apply (process_event_missing_key Sample.quiet
           (PDict [("content", PDict [("deviceId", PStr "1922"); ("name", PStr "switch")])])
           [("deviceId", PStr "1922"); ("name", PStr "switch")] "value" Sample.world).
  - reflexivity.
  - repeat first [apply list_elem_of_here | apply list_elem_of_further].
  - reflexivity.
Defined.
